(** * Subscription entitlement and payment-webhook reconciliation of app.py

    A shallow embedding of the entitlement check, the checkout-session
    initiator and the webhook reconciler of [src/app.py], with the SQLite
    store and the payment processor as explicit state. *)

From Stdlib Require Import ZArith.
From stdpp Require Import gmap strings list fin_maps pretty.

Local Open Scope Z_scope.
Local Open Scope string_scope.

(** ** 1. Configuration and constants (app.py, lines 39-53) *)

(** [os.getenv(name, default)] over the process environment. *)
Definition getenv (environ : gmap string string) (name dflt : string) : string :=
  default dflt (environ !! name).

Definition STRIPE_WEBHOOK_SECRET (environ : gmap string string) : string :=
  getenv environ "STRIPE_WEBHOOK_SECRET" "whsec_YOUR_SECRET".
Definition STRIPE_PRICE_ID_BASIC (environ : gmap string string) : string :=
  getenv environ "STRIPE_PRICE_ID_BASIC" "price_1PG...".
Definition STRIPE_PRICE_ID_PREMIUM (environ : gmap string string) : string :=
  getenv environ "STRIPE_PRICE_ID_PREMIUM" "price_1PG...".
Definition STRIPE_PRICE_ID_ULTIMATE (environ : gmap string string) : string :=
  getenv environ "STRIPE_PRICE_ID_ULTIMATE" "price_1PG...".

(** [PLAN_HIERARCHY = {"none": 0, "basic": 1, "premium": 2, "ultimate": 3}] *)
Definition PLAN_HIERARCHY : gmap string Z :=
  <["ultimate" := 3]> (<["premium" := 2]> (<["basic" := 1]> (<["none" := 0]> ∅))).

(** ** 2. Helper functions (app.py, lines 66-69) *)

(** [dict.get(key, default)] *)
Definition dict_get {V} (d : gmap string V) (key : string) (dflt : V) : V :=
  default dflt (d !! key).

Definition user_has_access (user_plan required_plan : string) : bool :=
  let user_level := dict_get PLAN_HIERARCHY user_plan 0 in
  let required_level := dict_get PLAN_HIERARCHY required_plan 99 in
  user_level >=? required_level.

(** The four plan tiers of the specification, with their names and ranks in
    the order none < basic < premium < ultimate. *)
Inductive plan := PlanNone | PlanBasic | PlanPremium | PlanUltimate.

Definition plan_name (p : plan) : string :=
  match p with
  | PlanNone => "none"
  | PlanBasic => "basic"
  | PlanPremium => "premium"
  | PlanUltimate => "ultimate"
  end.

Definition rank (p : plan) : Z :=
  match p with
  | PlanNone => 0
  | PlanBasic => 1
  | PlanPremium => 2
  | PlanUltimate => 3
  end.

(** A string that names none of the four tiers. *)
Definition unrecognized (s : string) : Prop := ∀ p, s ≠ plan_name p.

(** ** 3. Python values and exceptions *)

(** The exceptions the modelled code raises or receives. [HTTPException]
    carries its status code and detail; the detail [StrOf e] is [str(e)]. *)
Inductive exn :=
| HTTPException (status_code : Z) (detail : detail)
| ValueError (msg : string)
| SignatureVerificationError (msg : string)
| StripeError (msg : string)
| AttributeError (msg : string)
| IndexError (msg : string)
| IntegrityError (msg : string)
with detail :=
| Detail (text : string)
| StrOf (e : exn).

(** Truth value of an optional string ([None] and the empty string are false). *)
Definition truthy (v : option string) : bool :=
  match v with
  | Some s => bool_decide (s ≠ EmptyString)
  | None => false
  end.

(** The string a truthy optional value holds. *)
Definition str_of (v : option string) : string := default EmptyString v.

(** Truth value of an optional list ([None] and [[]] are false). *)
Definition truthy_list {A} (v : option (list A)) : bool :=
  match v with
  | Some (_ :: _) => true
  | _ => false
  end.

(** [needle in haystack] on strings. *)
Fixpoint str_in (needle haystack : string) : bool :=
  if String.prefix needle haystack then true
  else match haystack with
       | EmptyString => false
       | String _ rest => str_in needle rest
       end.

(** ** 4. Database (app.py, lines 112-128) *)

(** A row of [users]; the INTEGER PRIMARY KEY [id] is the key of the table. *)
Record user := User {
  username : string;
  email : string;
  hashed_password : string;
  full_name : option string;
  role : option string;
  created_at : option string;
  subscription_plan : option string;
  subscription_status : option string;
  stripe_customer_id : option string;
  subscription_id : option string;
  profile_picture_url : option string }.

(** A row of [orders] ([total_amount] is REAL in the schema; this core never
    reads it). *)
Record order := Order {
  user_id : Z;
  total_amount : Z;
  status : option string;
  stripe_session_id : option string;
  order_created_at : option string }.

Record store := Store {
  users : gmap Z user;
  orders : gmap Z order }.

(** A value bound to a [?] placeholder. *)
Inductive sqlval :=
| SqlNull
| SqlInteger (z : Z)
| SqlText (s : string).

Definition sql_of_text (v : option string) : sqlval :=
  match v with
  | Some s => SqlText s
  | None => SqlNull
  end.

(** What the deployment supplies: the process environment, and SQLite's
    reading of a TEXT value compared with an INTEGER column (the integer it
    converts to under NUMERIC affinity, if it is a numeric literal). *)
Class Deployment := {
  environ : gmap string string;
  integer_of_text : string → option Z }.

(** The row id a bound value selects in [WHERE id = ?]. *)
Definition rowid_of `{Deployment} (v : sqlval) : option Z :=
  match v with
  | SqlNull => None
  | SqlInteger z => Some z
  | SqlText s => integer_of_text s
  end.

(** The statements this core executes. *)
Inductive sql :=
(** [SELECT * FROM users WHERE username = ?] *)
| SelectUserByUsername (name : string)
(** [UPDATE users SET stripe_customer_id = ? WHERE id = ?] *)
| UpdateUserCustomer (customer_id : string) (id : sqlval)
(** [UPDATE users SET subscription_plan = ?, subscription_status = 'active',
    subscription_id = ? WHERE id = ?] *)
| UpdateUserSubscription (plan : string) (sub : option string) (id : sqlval)
(** [UPDATE orders SET status = 'completed' WHERE stripe_session_id = ?] *)
| UpdateOrderCompleted (session_id : string)
(** [UPDATE users SET subscription_status = 'active' WHERE subscription_id = ?] *)
| UpdateUserActive (sub : string).

Definition set_stripe_customer_id (v : option string) (u : user) : user :=
  User (username u) (email u) (hashed_password u) (full_name u) (role u)
       (created_at u) (subscription_plan u) (subscription_status u)
       v (subscription_id u) (profile_picture_url u).

Definition set_subscription (plan status sub : option string) (u : user) : user :=
  User (username u) (email u) (hashed_password u) (full_name u) (role u)
       (created_at u) plan status
       (stripe_customer_id u) sub (profile_picture_url u).

Definition set_subscription_status (v : option string) (u : user) : user :=
  set_subscription (subscription_plan u) v (subscription_id u) u.

Definition set_status (v : option string) (o : order) : order :=
  Order (user_id o) (total_amount o) v (stripe_session_id o) (order_created_at o).

(** A UNIQUE column: another row than [id] already holds the non-NULL [v]. *)
Definition unique_conflict (column : user → option string) (v : option string)
    (id : Z) (us : gmap Z user) : bool :=
  bool_decide (map_Exists (λ k u, k ≠ id ∧ v ≠ None ∧ column u = v) us).

(** [UPDATE users SET ... WHERE id = ?]: no row, or the one row with that id;
    a UNIQUE violation aborts the statement with [IntegrityError]. *)
Definition update_user_by_id `{Deployment} (id : sqlval) (column : user → option string)
    (v : option string) (column_name : string) (f : user → user) (d : store) : exn + store :=
  match rowid_of id with
  | None => inr d
  | Some k =>
      match users d !! k with
      | None => inr d
      | Some u =>
          if unique_conflict column v k (users d)
          then inl (IntegrityError ("UNIQUE constraint failed: users." +:+ column_name))
          else inr (Store (<[k := f u]> (users d)) (orders d))
      end
  end.

Definition exec_sql `{Deployment} (q : sql) (d : store) : exn + store :=
  match q with
  | SelectUserByUsername _ => inr d
  | UpdateUserCustomer customer_id id =>
      update_user_by_id id stripe_customer_id (Some customer_id) "stripe_customer_id"
        (set_stripe_customer_id (Some customer_id)) d
  | UpdateUserSubscription plan sub id =>
      update_user_by_id id subscription_id sub "subscription_id"
        (set_subscription (Some plan) (Some "active") sub) d
  | UpdateOrderCompleted session_id =>
      inr (Store (users d)
             ((λ o, if bool_decide (stripe_session_id o = Some session_id)
                    then set_status (Some "completed") o else o) <$> orders d))
  | UpdateUserActive sub =>
      inr (Store ((λ u, if bool_decide (subscription_id u = Some sub)
                        then set_subscription_status (Some "active") u else u) <$> users d)
             (orders d))
  end.

(** The authenticated user as the handlers receive it: [dict(row)]. *)
Record current_user := CurrentUser {
  cu_id : Z;
  cu_row : user }.

(** The row a [SELECT * FROM users WHERE username = ?] fetches: the one with
    that (UNIQUE) username, if any. *)
Definition select_user (d : store) (name : string) : option current_user :=
  (λ kv : Z * user, CurrentUser kv.1 kv.2) <$>
    head (filter (λ kv : Z * user, username kv.2 = name) (map_to_list (users d))).

(** ** 5. The payment processor (the [stripe] client library) *)

Record line_item := LineItem {
  price : string;
  quantity : Z }.

(** [stripe.Price]: its id and whether [recurring] is set. *)
Record price_info := PriceInfo {
  price_id : string;
  recurring : bool }.

Record customer := Customer {
  customer_id : string }.

(** A created checkout session: [session.id] and [session.url]. *)
Record checkout_session := CheckoutSession {
  cs_id : string;
  cs_url : string }.

(** The keyword arguments of [stripe.checkout.Session.create]. *)
Record session_params := SessionParams {
  sp_customer : string;
  sp_payment_method_types : list string;
  sp_line_items : list line_item;
  sp_mode : string;
  sp_success_url : string;
  sp_cancel_url : string;
  sp_metadata : list (string * Z) }.

Record subscription_item := SubscriptionItem {
  item_price : price_info }.

(** [stripe.Subscription]: the list under its key 'items', [items['data']]. *)
Record subscription := Subscription {
  items_data : list subscription_item }.

(** A key of a JSON object: absent, present with [null], or present with a
    value. *)
Inductive field (A : Type) :=
| Missing
| Null
| Present (a : A).
Arguments Missing {A}.
Arguments Null {A}.
Arguments Present {A}.

(** [event['data']['object']] of a webhook event: a checkout session or an
    invoice, with the attributes the handlers read. *)
Record stripe_object := StripeObject {
  so_id : string;
  so_mode : string;
  so_subscription : option string;
  so_metadata : field (gmap string string) }.

Record event := Event {
  ev_type : string;
  ev_object : stripe_object }.

(** The processor as the client library presents it, over a processor-side
    state [St]: retrievals read it, creations change it, and every call may
    raise. [Webhook_construct_event] checks the signature of a payload against
    the signing secret and decodes the event. *)
Class Processor (St : Type) := {
  Webhook_construct_event : St → string → option string → string → exn + event;
  Price_retrieve : St → string → exn + price_info;
  Customer_create : St → string → option string → (exn + customer) * St;
  Session_create : St → session_params → (exn + checkout_session) * St;
  Subscription_retrieve : St → option string → exn + subscription }.

(** ** 6. Effects: the store, the open connection, the processor, a trace *)

Inductive stripe_call :=
| PriceRetrieve (id : string)
| CustomerCreate (email : string) (name : option string)
| SessionCreate (params : session_params)
| SubscriptionRetrieve (id : option string).

Inductive effect :=
| StripeCall (c : stripe_call)
| DbConnect
| DbExecute (q : sql)
| DbCommit
| DbRollback.

(** [db] is the committed content of the database file, [conn] the content
    as the open connection sees it (uncommitted changes included), [trace] the
    calls made so far, oldest first. *)
Record world (St : Type) := World {
  db : store;
  conn : option store;
  stripe : St;
  trace : list effect }.
Arguments World {St}.
Arguments db {St}.
Arguments conn {St}.
Arguments stripe {St}.
Arguments trace {St}.

Definition log {St} (e : effect) (w : world St) : world St :=
  World (db w) (conn w) (stripe w) (trace w ++ [e]).

(** A computation that returns a value or raises, over the world. *)
Definition M (St A : Type) : Type := world St → (exn + A) * world St.

#[global] Instance M_ret St : MRet (M St) := λ A a w, (inr a, w).
#[global] Instance M_bind St : MBind (M St) := λ A B f m w,
  match m w with
  | (inr a, w') => f a w'
  | (inl e, w') => (inl e, w')
  end.

Definition raise {St A} (e : exn) : M St A := λ w, (inl e, w).

(** [try: body except Exception as e: handler(e)] *)
Definition try_except {St A} (body : M St A) (handler : exn → M St A) : M St A := λ w,
  match body w with
  | (inr a, w') => (inr a, w')
  | (inl e, w') => handler e w'
  end.

(** [conn.execute(sql, params)]: returns a cursor. *)
Inductive cursor := Cursor.

Definition execute `{Deployment} {St} (q : sql) : M St cursor := λ w,
  let w := log (DbExecute q) w in
  match exec_sql q (default (db w) (conn w)) with
  | inl e => (inl e, w)
  | inr d => (inr Cursor, World (db w) (Some d) (stripe w) (trace w))
  end.

(** [conn.commit()] *)
Definition commit {St} : M St unit := λ w,
  let w := log DbCommit w in
  (inr tt, World (default (db w) (conn w)) (conn w) (stripe w) (trace w)).

(** [cursor.commit()]: a [sqlite3.Cursor] has no such attribute. *)
Definition cursor_commit {St} (c : cursor) : M St unit :=
  raise (AttributeError "'sqlite3.Cursor' object has no attribute 'commit'").

(** [with get_db_connection() as conn: body]: a fresh connection; leaving the
    block commits, leaving it by an exception rolls back. *)
Definition with_connection {St A} (body : M St A) : M St A := λ w,
  let w := log DbConnect w in
  match body (World (db w) (Some (db w)) (stripe w) (trace w)) with
  | (inr a, w') =>
      let w' := log DbCommit w' in
      (inr a, World (default (db w') (conn w')) None (stripe w') (trace w'))
  | (inl e, w') =>
      let w' := log DbRollback w' in
      (inl e, World (db w') None (stripe w') (trace w'))
  end.

Definition stripe_Price_retrieve `{Processor St} (id : string) : M St price_info := λ w,
  (Price_retrieve (stripe w) id, log (StripeCall (PriceRetrieve id)) w).

Definition stripe_Customer_create `{Processor St} (email : string) (name : option string)
    : M St customer := λ w,
  let w := log (StripeCall (CustomerCreate email name)) w in
  let '(r, s) := Customer_create (stripe w) email name in
  (r, World (db w) (conn w) s (trace w)).

Definition stripe_checkout_Session_create `{Processor St} (params : session_params)
    : M St checkout_session := λ w,
  let w := log (StripeCall (SessionCreate params)) w in
  let '(r, s) := Session_create (stripe w) params in
  (r, World (db w) (conn w) s (trace w)).

Definition stripe_Subscription_retrieve `{Processor St} (id : option string)
    : M St subscription := λ w,
  (Subscription_retrieve (stripe w) id, log (StripeCall (SubscriptionRetrieve id)) w).

Definition stripe_Webhook_construct_event `{Processor St}
    (payload : string) (sig_header : option string) (secret : string) : M St event := λ w,
  (Webhook_construct_event (stripe w) payload sig_header secret, w).

(** [xs[0]] *)
Definition index0 {St A} (xs : list A) : M St A :=
  match xs with
  | x :: _ => mret x
  | [] => raise (IndexError "list index out of range")
  end.

(** ** 7. HTTP requests and responses *)

Record json_body := JsonBody {
  json_line_items : option (list line_item) }.

(** A request: its headers, raw body, and what [await request.json()] and
    [await request.form()] yield (or raise). *)
Record request := Request {
  headers : gmap string string;
  body : string;
  base_url : string;
  json : exn + json_body;
  form : exn + gmap string string }.

Inductive response :=
| JSONResponse (content : list (string * string)) (status_code : Z)
| RedirectResponse (url : string) (status_code : Z).

(** The status the framework answers with: a raised [HTTPException] gives its
    own status code, any other uncaught exception 500. *)
Definition http_status (r : exn + response) : Z :=
  match r with
  | inr (JSONResponse _ c) => c
  | inr (RedirectResponse _ c) => c
  | inl (HTTPException c _) => c
  | inl _ => 500
  end.

(** [await e] of an awaitable that yields a value or raises. *)
Definition await {St A} (r : exn + A) : M St A := λ w, (r, w).

(** An expression that yields a value or raises, and touches nothing. *)
Definition evaluate {St A} (r : exn + A) : M St A := λ w, (r, w).

(** ** 8. Authentication (app.py, lines 217-241) *)

(** [cursor.fetchone()] after the SELECT on [users]. *)
Definition fetchone_user {St} (c : cursor) (name : string) : M St (option current_user) :=
  λ w, (inr (select_user (default (db w) (conn w)) name), w).

Definition get_user `{Deployment} {St} (username : string) : M St (option current_user) :=
  c ← execute (SelectUserByUsername username);
  fetchone_user c username.

(** [get_current_user] from the point where the token's [sub] claim has been
    decoded: the user row is read from the store, or 401 is raised. *)
Definition get_current_user `{Deployment} {St} (sub : option string) : M St current_user :=
  let credentials_exception := HTTPException 401 (Detail "Not authenticated") in
  match sub with
  | None => raise credentials_exception
  | Some username =>
      user ← with_connection (get_user username);
      match user with
      | None => raise credentials_exception
      | Some user => mret user
      end
  end.

(** ** 9. Checkout session initiator (app.py, lines 1703-1751) *)

(** Lines 1706-1716: the line items the request carries, from a JSON body
    or from a single-price form submission. *)
Definition request_line_items (request : request) : exn + option (list line_item) :=
  let content_type := dict_get (headers request) "content-type" EmptyString in
  if str_in "application/json" content_type then
    match json request with
    | inl e => inl e
    | inr json_data => inr (json_line_items json_data)
    end
  else if str_in "application/x-www-form-urlencoded" content_type then
    match form request with
    | inl e => inl e
    | inr form_data =>
        let price_id := form_data !! "price_id" in
        if truthy price_id then inr (Some [LineItem (str_of price_id) 1]) else inr None
    end
  else inr None.

Definition create_checkout_session_api `{Deployment} `{Processor St}
    (request : request) (current_user : current_user) : M St response :=
  try_except (
    line_items ← await (request_line_items request);
    if negb (truthy_list line_items)
    then raise (HTTPException 400 (Detail "No items to purchase."))
    else
      let line_items := default [] line_items in
      first ← index0 line_items;
      first_price_info ← stripe_Price_retrieve (price first);
      let mode := if recurring first_price_info then "subscription" else "payment" in
      stripe_customer_id ←
        (let stripe_customer_id := stripe_customer_id (cu_row current_user) in
         if truthy stripe_customer_id then mret (str_of stripe_customer_id)
         else
           customer ← stripe_Customer_create (email (cu_row current_user))
                        (full_name (cu_row current_user));
           let stripe_customer_id := customer_id customer in
           _ ← with_connection (
                 _ ← execute (UpdateUserCustomer stripe_customer_id
                                (SqlInteger (cu_id current_user)));
                 commit);
           mret stripe_customer_id);
      session ← stripe_checkout_Session_create
        (SessionParams stripe_customer_id ["card"] line_items mode
           (base_url request +:+ "payment/success?session_id={CHECKOUT_SESSION_ID}")
           (base_url request +:+ "payment/cancel")
           [("user_id", cu_id current_user)]);
      if str_in "application/json" (dict_get (headers request) "accept" EmptyString)
      then mret (JSONResponse [("id", cs_id session)] 200)
      else mret (RedirectResponse (cs_url session) 303))
  (λ e, raise (HTTPException 500 (StrOf e))).

(** ** 10. Webhook reconciler (app.py, lines 1754-1807)

    The handlers' [print] calls write to the console only and are left out. *)

(** Lines 1781-1785: the handler's [plan_map], a dict display whose later
    entries replace earlier ones with an equal key. *)
Definition plan_map `{Deployment} : gmap string string :=
  <[STRIPE_PRICE_ID_ULTIMATE environ := "ultimate"]>
    (<[STRIPE_PRICE_ID_PREMIUM environ := "premium"]>
       (<[STRIPE_PRICE_ID_BASIC environ := "basic"]> ∅)).

(** Line 1770, [session.get('metadata', {}).get('user_id')]: the default
    stands in for an absent key only; where the key holds [null] the second
    [get] is asked of [None]. *)
Definition session_user_id (session : stripe_object) : exn + option string :=
  match so_metadata session with
  | Missing => inr None
  | Null => inl (AttributeError "'NoneType' object has no attribute 'get'")
  | Present metadata => inr (metadata !! "user_id")
  end.

(** The session's metadata carries a user id. *)
Definition carries_user_id (session : stripe_object) : bool :=
  match session_user_id session with
  | inr user_id => truthy user_id
  | inl _ => false
  end.

(** Line 1779, [subscription_data.items]: the object the client library
    returns is a dict, and attribute lookup finds the method [dict.items]
    before the key 'items'; [.data] is then asked of that method, which has
    no such attribute. *)
Inductive dict_method := DictItems.

Definition attr_items (subscription_data : subscription) : dict_method := DictItems.

Definition attr_data {St} (method : dict_method) : M St (list subscription_item) :=
  raise (AttributeError "'builtin_function_or_method' object has no attribute 'data'").

Definition handle_checkout_session_completed `{Deployment} `{Processor St}
    (session : stripe_object) : M St unit :=
  user_id ← evaluate (session_user_id session);
  if negb (truthy user_id) then mret tt
  else if bool_decide (so_mode session = "subscription") then
    let stripe_subscription_id := so_subscription session in
    subscription_data ← stripe_Subscription_retrieve stripe_subscription_id;
    data ← attr_data (attr_items subscription_data);
    item ← index0 data;
    let price_id := price_id (item_price item) in
    let plan_name := dict_get plan_map price_id "unknown" in
    with_connection (
      _ ← execute (UpdateUserSubscription plan_name stripe_subscription_id
                     (sql_of_text user_id));
      commit)
  else if bool_decide (so_mode session = "payment") then
    with_connection (
      _ ← execute (UpdateOrderCompleted (so_id session));
      commit)
  else mret tt.

Definition handle_invoice_paid `{Deployment} {St} (invoice : stripe_object) : M St unit :=
  let sub_id := so_subscription invoice in
  if truthy sub_id then
    with_connection (
      c ← execute (UpdateUserActive (str_of sub_id));
      cursor_commit c)
  else mret tt.

Definition stripe_webhook_api `{Deployment} `{Processor St} (request : request)
    : M St response :=
  let payload := body request in
  let sig_header := headers request !! "stripe-signature" in
  event ← try_except
    (stripe_Webhook_construct_event payload sig_header (STRIPE_WEBHOOK_SECRET environ))
    (λ e, match e with
          | ValueError _ | SignatureVerificationError _ => raise (HTTPException 400 (StrOf e))
          | _ => raise e
          end);
  _ ← (if bool_decide (ev_type event = "checkout.session.completed")
       then handle_checkout_session_completed (ev_object event)
       else if bool_decide (ev_type event = "invoice.payment_succeeded")
       then handle_invoice_paid (ev_object event)
       else mret tt);
  mret (JSONResponse [("status", "success")] 200).

(** ** 11. Two checkout initiations by one user *)

(** The endpoint behind its [Depends(get_current_active_user)]: the handler
    body runs on the user row the dependency read. *)
Definition serve `{Deployment} `{Processor St}
    (current_user : exn + current_user) (request : request) : M St response :=
  match current_user with
  | inl e => raise e
  | inr u => create_checkout_session_api request u
  end.

(** The second request is authenticated after the first has been answered. *)
Definition two_checkouts_in_sequence `{Deployment} `{Processor St}
    (sub : option string) (r1 r2 : request) (w : world St)
    : (exn + response) * (exn + response) * world St :=
  let '(u1, w) := get_current_user sub w in
  let '(a, w) := serve u1 r1 w in
  let '(u2, w) := get_current_user sub w in
  let '(b, w) := serve u2 r2 w in
  (a, b, w).

(** Both requests are authenticated before either handler body runs (the
    handler suspends at [await request.json()] after its dependencies have
    been resolved). *)
Definition two_checkouts_interleaved `{Deployment} `{Processor St}
    (sub : option string) (r1 r2 : request) (w : world St)
    : (exn + response) * (exn + response) * world St :=
  let '(u1, w) := get_current_user sub w in
  let '(u2, w) := get_current_user sub w in
  let '(a, w) := serve u1 r1 w in
  let '(b, w) := serve u2 r2 w in
  (a, b, w).

(** Readings of a trace. *)
Definition is_customer_create (e : effect) : bool :=
  match e with
  | StripeCall (CustomerCreate _ _) => true
  | _ => false
  end.

Definition customers_created (t : list effect) : nat :=
  length (List.filter is_customer_create t).

Definition session_params_of (e : effect) : option session_params :=
  match e with
  | StripeCall (SessionCreate p) => Some p
  | _ => None
  end.

(** The modes, and the customers, of the checkout sessions a trace opened. *)
Definition session_modes (t : list effect) : list string :=
  sp_mode <$> omap session_params_of t.

Definition session_customers (t : list effect) : list string :=
  sp_customer <$> omap session_params_of t.

(** There is a customer to open a session for: the user row carries a
    customer reference, or the processor creates a customer and no other user
    holds its reference. *)
Definition customer_available `{Processor St} (current_user : current_user)
    (w : world St) : Prop :=
  truthy (stripe_customer_id (cu_row current_user)) = true
  ∨ ∃ c s, Customer_create (stripe w) (email (cu_row current_user))
             (full_name (cu_row current_user)) = (inr c, s)
           ∧ unique_conflict stripe_customer_id (Some (customer_id c))
               (cu_id current_user) (users (db w)) = false.

(** The UNIQUE constraint on [users.username]. *)
Definition unique_usernames (us : gmap Z user) : Prop :=
  ∀ k1 k2 u1 u2, us !! k1 = Some u1 → us !! k2 = Some u2 →
                 username u1 = username u2 → k1 = k2.

(** ** 12. A test deployment and a test processor *)

Definition digit_of (c : Ascii.ascii) : option Z :=
  let n := Z.of_nat (Ascii.nat_of_ascii c) in
  if bool_decide (48 ≤ n ≤ 57)%Z then Some (n - 48) else None.

Fixpoint parse_digits (s : string) (acc : Z) : option Z :=
  match s with
  | EmptyString => Some acc
  | String c rest =>
      match digit_of c with
      | Some d => parse_digits rest (10 * acc + d)
      | None => None
      end
  end.

(** Decimal integer literals, as the application writes user ids. *)
Definition decimal (s : string) : option Z :=
  match s with
  | EmptyString => None
  | _ => parse_digits s 0
  end.

(** Three distinct price ids configured. *)
Definition test_deployment : Deployment :=
  {| environ :=
       <["STRIPE_PRICE_ID_BASIC" := "price_basic"]>
         (<["STRIPE_PRICE_ID_PREMIUM" := "price_premium"]>
            (<["STRIPE_PRICE_ID_ULTIMATE" := "price_ultimate"]>
               (<["STRIPE_WEBHOOK_SECRET" := "whsec_test"]> ∅)));
     integer_of_text := decimal |}.

Definition test_user_metadata : field (gmap string string) :=
  Present (<["user_id" := "1"]> ∅).

Definition subscription_session : stripe_object :=
  StripeObject "cs_sub" "subscription" (Some "sub_1") test_user_metadata.

Definition payment_session : stripe_object :=
  StripeObject "cs_pay" "payment" None test_user_metadata.

Definition orphan_invoice : stripe_object :=
  StripeObject "in_1" EmptyString (Some "sub_orphan") Missing.

(** The test processor counts the objects it has created. It accepts the
    signature header "good" and decodes three payloads. *)
Definition test_construct_event (payload : string) (sig_header : option string)
    : exn + event :=
  if bool_decide (sig_header = Some "good") then
    if bool_decide (payload = "checkout_subscription")
    then inr (Event "checkout.session.completed" subscription_session)
    else if bool_decide (payload = "checkout_payment")
    then inr (Event "checkout.session.completed" payment_session)
    else if bool_decide (payload = "invoice_paid")
    then inr (Event "invoice.payment_succeeded" orphan_invoice)
    else inl (ValueError "Invalid payload")
  else inl (SignatureVerificationError
              "No signatures found matching the expected signature for payload").

Definition test_price (id : string) : exn + price_info :=
  if bool_decide (id = "price_premium") then inr (PriceInfo id true)
  else if bool_decide (id = "price_basic") then inr (PriceInfo id true)
  else if bool_decide (id = "price_game") then inr (PriceInfo id false)
  else inl (StripeError "No such price").

Definition test_subscription (id : option string) : exn + subscription :=
  if bool_decide (id = Some "sub_1")
  then inr (Subscription [SubscriptionItem (PriceInfo "price_premium" true)])
  else if bool_decide (id = Some "sub_2")
  then inr (Subscription [SubscriptionItem (PriceInfo "price_other" true)])
  else if bool_decide (id = Some "sub_3")
  then inr (Subscription [SubscriptionItem (PriceInfo "price_1PG..." true)])
  else inl (StripeError "No such subscription").

Definition test_processor : Processor nat :=
  {| Webhook_construct_event := λ _ payload sig_header _,
       test_construct_event payload sig_header;
     Price_retrieve := λ _ id, test_price id;
     Customer_create := λ n _ _, (inr (Customer ("cus_" +:+ pretty n)), S n);
     Session_create := λ n _,
       (inr (CheckoutSession ("cs_" +:+ pretty n)
               ("https://checkout.stripe.com/pay/cs_" +:+ pretty n)), S n);
     Subscription_retrieve := λ _ id, test_subscription id |}.

Definition alice : user :=
  User "alice" "alice@example.com" "$2b$12$hash" (Some "Alice") (Some "user")
       (Some "2024-01-01 00:00:00") (Some "none") None None None None.

Definition bob : user :=
  User "bob" "bob@example.com" "$2b$12$hash" (Some "Bob") (Some "user")
       (Some "2024-01-02 00:00:00") (Some "basic") (Some "active") (Some "cus_bob")
       (Some "sub_1") None.

Definition failed_order : order :=
  Order 1 5999 (Some "failed") (Some "cs_pay") (Some "2024-02-01 00:00:00").

Definition alice_store : store := Store (<[1 := alice]> ∅) ∅.

Definition alice_bob_store : store := Store (<[2 := bob]> (<[1 := alice]> ∅)) ∅.

Definition failed_order_store : store :=
  Store (<[1 := alice]> ∅) (<[7 := failed_order]> ∅).

Definition test_world (d : store) : world nat := World d None 0%nat [].

Definition json_request (items : option (list line_item)) : request :=
  Request (<["content-type" := "application/json"]> ∅) EmptyString
          "http://localhost:8000/" (inr (JsonBody items)) (inr ∅).

Definition webhook_request (payload : string) (sig_header : string) : request :=
  Request (<["stripe-signature" := sig_header]> ∅) payload
          "http://localhost:8000/" (inl (ValueError "not JSON")) (inr ∅).

(** ** 13. What the payment core leaves alone

    The columns of [users] that no statement of the webhook writes, the
    columns of [orders] it does not write, and the columns of [users] the
    checkout initiator does not write. *)

Definition webhook_keeps_user (u u' : user) : Prop :=
  username u' = username u ∧ email u' = email u
  ∧ hashed_password u' = hashed_password u ∧ full_name u' = full_name u
  ∧ role u' = role u ∧ created_at u' = created_at u
  ∧ stripe_customer_id u' = stripe_customer_id u
  ∧ profile_picture_url u' = profile_picture_url u.

Definition webhook_keeps_order (o o' : order) : Prop :=
  user_id o' = user_id o ∧ total_amount o' = total_amount o
  ∧ stripe_session_id o' = stripe_session_id o
  ∧ order_created_at o' = order_created_at o.

Definition checkout_keeps_user (u u' : user) : Prop :=
  username u' = username u ∧ email u' = email u
  ∧ hashed_password u' = hashed_password u ∧ full_name u' = full_name u
  ∧ role u' = role u ∧ created_at u' = created_at u
  ∧ subscription_plan u' = subscription_plan u
  ∧ subscription_status u' = subscription_status u
  ∧ subscription_id u' = subscription_id u
  ∧ profile_picture_url u' = profile_picture_url u.

(** Two tables have the same rows up to a relation on the rows: no row is
    added, none is deleted. *)
Definition same_rows {A} (R : A → A → Prop) (t t' : gmap Z A) : Prop :=
  ∀ k, option_Forall2 R (t !! k) (t' !! k).

(** The UNIQUE constraints on [users.subscription_id] and
    [users.stripe_customer_id] (NULL is held by any number of rows). *)
Definition unique_column (column : user → option string) (us : gmap Z user) : Prop :=
  ∀ k1 k2 u1 u2 v, us !! k1 = Some u1 → us !! k2 = Some u2 →
                   column u1 = Some v → column u2 = Some v → k1 = k2.

(** A second test processor: it also decodes an event of a kind the webhook
    has no handler for, a completed checkout without metadata, and one whose
    metadata is [null]. *)
Definition anonymous_session : stripe_object :=
  StripeObject "cs_anon" "payment" None Missing.

Definition null_metadata_session : stripe_object :=
  StripeObject "cs_null" "payment" None Null.

Definition more_construct_event (payload : string) (sig_header : option string)
    : exn + event :=
  if bool_decide (sig_header = Some "good") then
    if bool_decide (payload = "customer_created")
    then inr (Event "customer.created" (StripeObject "cus_9" EmptyString None Missing))
    else if bool_decide (payload = "checkout_anonymous")
    then inr (Event "checkout.session.completed" anonymous_session)
    else if bool_decide (payload = "checkout_null_metadata")
    then inr (Event "checkout.session.completed" null_metadata_session)
    else test_construct_event payload sig_header
  else test_construct_event payload sig_header.

Definition more_processor : Processor nat :=
  {| Webhook_construct_event := λ _ payload sig_header _,
       more_construct_event payload sig_header;
     Price_retrieve := λ _ id, test_price id;
     Customer_create := λ n _ _, (inr (Customer ("cus_" +:+ pretty n)), S n);
     Session_create := λ n _,
       (inr (CheckoutSession ("cs_" +:+ pretty n)
               ("https://checkout.stripe.com/pay/cs_" +:+ pretty n)), S n);
     Subscription_retrieve := λ _ id, test_subscription id |}.

(** A processor whose checkout cannot be opened: [Session.create] raises. *)
Definition failing_session_processor : Processor nat :=
  {| Webhook_construct_event := λ _ payload sig_header _,
       test_construct_event payload sig_header;
     Price_retrieve := λ _ id, test_price id;
     Customer_create := λ n _ _, (inr (Customer ("cus_" +:+ pretty n)), S n);
     Session_create := λ n _, (inl (StripeError "Connection error"), n);
     Subscription_retrieve := λ _ id, test_subscription id |}.

(** ** 14. Slugs (app.py, lines 60-63)

    [slugify] on ASCII text: for code points below 128 [str.lower] maps A-Z
    to a-z, [\w] is a letter, a digit or the underscore, and every character
    [\s] matches is outside [\w]. Above 127 Python consults the Unicode
    tables, which are not modelled; the properties of [slugify] are stated for
    ASCII text. *)

Section Slugs.
Import Stdlib.Strings.Ascii.

Definition isascii_char (c : Ascii.ascii) : bool :=
  (Ascii.nat_of_ascii c <? 128)%nat.

(** [text.isascii()] *)
Fixpoint isascii (text : string) : bool :=
  match text with
  | EmptyString => true
  | String c rest => isascii_char c && isascii rest
  end.

Definition between (lo hi : nat) (c : Ascii.ascii) : bool :=
  ((lo <=? Ascii.nat_of_ascii c) && (Ascii.nat_of_ascii c <=? hi))%nat.

Definition lower_char (c : Ascii.ascii) : Ascii.ascii :=
  if between 65 90 c then Ascii.ascii_of_nat (Ascii.nat_of_ascii c + 32) else c.

(** [text.lower()] *)
Fixpoint lower (text : string) : string :=
  match text with
  | EmptyString => EmptyString
  | String c rest => String (lower_char c) (lower rest)
  end.

(** [\w] *)
Definition word_char (c : Ascii.ascii) : bool :=
  between 97 122 c || between 65 90 c || between 48 57 c
  || bool_decide (c = "_"%char).

(** [\s] *)
Definition space_char (c : Ascii.ascii) : bool :=
  between 9 13 c || between 28 32 c.

(** The class [[\s\W-]]. *)
Definition separator (c : Ascii.ascii) : bool :=
  space_char c || negb (word_char c) || bool_decide (c = "-"%char).

(** [re.sub(r'[\s\W-]+', '-', text)]: every maximal run of separators becomes
    one hyphen. [in_run] tells that the character before was a separator. *)
Fixpoint sub_runs (in_run : bool) (text : string) : string :=
  match text with
  | EmptyString => EmptyString
  | String c rest =>
      if separator c
      then if in_run then sub_runs true rest else String "-" (sub_runs true rest)
      else String c (sub_runs false rest)
  end.

(** [text.lstrip('-')] and [text.rstrip('-')] *)
Fixpoint lstrip (text : string) : string :=
  match text with
  | String c rest => if bool_decide (c = "-"%char) then lstrip rest else text
  | EmptyString => EmptyString
  end.

Fixpoint rstrip (text : string) : string :=
  match text with
  | EmptyString => EmptyString
  | String c rest =>
      match rstrip rest with
      | EmptyString => if bool_decide (c = "-"%char) then EmptyString
                       else String c EmptyString
      | kept => String c kept
      end
  end.

(** [text.strip('-')] *)
Definition strip (text : string) : string := rstrip (lstrip text).

Definition slugify (text : string) : string :=
  let text := lower text in
  let text := sub_runs false text in
  strip text.

(** The characters of a slug: a-z, 0-9, the underscore and the hyphen. *)
Definition slug_char (c : Ascii.ascii) : bool :=
  between 97 122 c || between 48 57 c || bool_decide (c = "_"%char)
  || bool_decide (c = "-"%char).

Fixpoint all_chars (P : Ascii.ascii → bool) (text : string) : bool :=
  match text with
  | EmptyString => true
  | String c rest => P c && all_chars P rest
  end.

Definition starts_with_hyphen (text : string) : bool :=
  match text with
  | String c _ => bool_decide (c = "-"%char)
  | EmptyString => false
  end.

Fixpoint ends_with_hyphen (text : string) : bool :=
  match text with
  | EmptyString => false
  | String c EmptyString => bool_decide (c = "-"%char)
  | String _ rest => ends_with_hyphen rest
  end.

Fixpoint has_double_hyphen (text : string) : bool :=
  match text with
  | String c rest =>
      (bool_decide (c = "-"%char) && starts_with_hyphen rest) || has_double_hyphen rest
  | EmptyString => false
  end.

(** A slug in normal form: slug characters only, no hyphen at either end, no
    two hyphens in a row. *)
Definition clean_slug (text : string) : bool :=
  all_chars slug_char text && negb (starts_with_hyphen text)
  && negb (ends_with_hyphen text) && negb (has_double_hyphen text).

End Slugs.

(** ** 15. Accounts: registration, login, authentication, profile
    (app.py, lines 204-249, 1627-1688) *)

Module Auth.

(** The claims of an access token: [sub] and [exp] (seconds since the epoch). *)
Record claims := Claims {
  claim_sub : option string;
  claim_exp : option Z }.

(** The libraries behind security and file storage. [pwd_hash salt p] is
    [pwd_context.hash(p)] when bcrypt draws [salt], which raises on a
    password the library refuses (one that is too long, or holds a NUL
    character); [pwd_verify p h] is
    [pwd_context.verify(p, h)], which raises on a hash it does not recognise;
    [jwt_decode now token key algorithms] is [None] where [jwt.decode] raises
    [JWTError]. [firebase_service] is the state of the global of that name
    ([None] before startup, else whether it is initialized), and
    [upload_file_from_bytes] its method of that name. *)
Class Libraries := {
  pwd_hash : string → string → exn + string;
  pwd_verify : string → string → exn + bool;
  jwt_encode : claims → string → string → string;
  jwt_decode : Z → string → string → list string → option claims;
  firebase_service : option bool;
  upload_file_from_bytes : string → string → string → option string }.

Definition SECRET_KEY (environ : gmap string string) : string :=
  getenv environ "SECRET_KEY"
    "09d25e094faa6ca2556c818166b7a9563b93f7099f6f0f4caa6cf63b88e8d3e7".
Definition ALGORITHM : string := "HS256".
Definition ACCESS_TOKEN_EXPIRE_MINUTES : Z := 60 * 24.

(** The statements of the account endpoints. *)
Inductive account_sql :=
(** [SELECT id FROM users WHERE username = ? OR email = ?] *)
| SelectIdByUsernameOrEmail (username email : string)
(** [INSERT INTO users (username, email, hashed_password, full_name)
    VALUES (?, ?, ?, ?)], run when CURRENT_TIMESTAMP is [now] *)
| InsertUser (username email hashed_password full_name now : string)
(** [SELECT id FROM users WHERE email = ? AND id != ?] *)
| SelectIdByEmailExcept (email : string) (id : Z)
(** [UPDATE users SET full_name = ?, email = ?, profile_picture_url = ?
    WHERE id = ?] *)
| UpdateUserProfile (full_name email : string) (profile_picture_url : option string)
    (id : Z).

(** The id of a new row: 1 in an empty table, else the largest id plus one
    (SQLite does so while the largest id is below 2^63 - 1). *)
Definition next_rowid {A} (t : gmap Z A) : Z :=
  match (map_to_list t).*1 with
  | [] => 1
  | k :: ks => 1 + foldr Z.max k ks
  end.

Definition set_profile (new_full_name : option string) (new_email : string)
    (new_picture : option string) (u : user) : user :=
  User (username u) new_email (hashed_password u) new_full_name (role u) (created_at u)
       (subscription_plan u) (subscription_status u) (stripe_customer_id u)
       (subscription_id u) new_picture.

(** The row the INSERT writes: the four given columns, the defaults of the
    schema for [role], [created_at] and [subscription_plan], NULL elsewhere. *)
Definition new_user (name mail hashed full now : string) : user :=
  User name mail hashed (Some full) (Some "user") (Some now)
       (Some "none") None None None None.

Definition exec_account_sql `{Deployment} (q : account_sql) (d : store) : exn + store :=
  match q with
  | SelectIdByUsernameOrEmail _ _ => inr d
  | SelectIdByEmailExcept _ _ => inr d
  | InsertUser name mail hashed full now =>
      if bool_decide (map_Exists (λ _ u, username u = name) (users d))
      then inl (IntegrityError "UNIQUE constraint failed: users.username")
      else if bool_decide (map_Exists (λ _ u, email u = mail) (users d))
      then inl (IntegrityError "UNIQUE constraint failed: users.email")
      else inr (Store (<[next_rowid (users d) := new_user name mail hashed full now]>
                         (users d))
                  (orders d))
  | UpdateUserProfile full mail picture id =>
      update_user_by_id (SqlInteger id) (λ u, Some (email u)) (Some mail) "email"
        (set_profile (Some full) mail picture) d
  end.

(** The first row of a SELECT of ids, if any. *)
Definition select_id (q : account_sql) (d : store) : option Z :=
  match q with
  | SelectIdByUsernameOrEmail name mail =>
      fst <$> head (filter (λ kv : Z * user, username kv.2 = name ∨ email kv.2 = mail)
                      (map_to_list (users d)))
  | SelectIdByEmailExcept mail id =>
      fst <$> head (filter (λ kv : Z * user, email kv.2 = mail ∧ kv.1 ≠ id)
                      (map_to_list (users d)))
  | _ => None
  end.

(** [conn.execute(sql, params)] and [cursor.fetchone()] for these statements
    (the trace keeps the statements of the payment core only). *)
Definition execute `{Deployment} {St} (q : account_sql) : M St cursor := λ w,
  match exec_account_sql q (default (db w) (conn w)) with
  | inl e => (inl e, w)
  | inr d => (inr Cursor, World (db w) (Some d) (stripe w) (trace w))
  end.

Definition fetchone {St} (q : account_sql) (c : cursor) : M St (option Z) := λ w,
  (inr (select_id q (default (db w) (conn w))), w).

(** [text.split(" ")] *)
Fixpoint split_space (text : string) : list string :=
  match text with
  | EmptyString => [EmptyString]
  | String c rest =>
      if bool_decide (c = Ascii.Space)
      then EmptyString :: split_space rest
      else match split_space rest with
           | part :: parts => String c part :: parts
           | [] => [String c EmptyString]
           end
  end.

(** [get_token_from_cookie], on [request.cookies]. *)
Definition get_token_from_cookie (cookies : gmap string string) : exn + option string :=
  let token := cookies !! "access_token" in
  if negb (truthy token) || negb (str_in " " (str_of token)) then inr None
  else match split_space (str_of token) with
       | _ :: part :: _ => inr (Some part)
       | _ => inl (IndexError "list index out of range")
       end.

(** [get_current_user], when the clock shows [now]. *)
Definition get_current_user `{Deployment} `{Libraries} {St}
    (now : Z) (token : option string) : M St current_user :=
  let credentials_exception := HTTPException 401 (Detail "Not authenticated") in
  match token with
  | None => raise credentials_exception
  | Some token =>
      match jwt_decode now token (SECRET_KEY environ) [ALGORITHM] with
      | None => raise credentials_exception
      | Some payload =>
          match claim_sub payload with
          | None => raise credentials_exception
          | Some username =>
              user ← with_connection (get_user username);
              match user with
              | None => raise credentials_exception
              | Some user => mret user
              end
          end
      end
  end.

Definition is_admin {St} (user : current_user) : M St current_user :=
  if bool_decide (role (cu_row user) ≠ Some "admin")
  then raise (HTTPException 403 (Detail "Admin access required"))
  else mret user.

Record UserCreate := {
  uc_username : string;
  uc_email : string;
  uc_password : string;
  uc_full_name : string }.

(** [register_user_api], when bcrypt draws [salt] and CURRENT_TIMESTAMP is
    [now]. *)
Definition register_user_api `{Deployment} `{Libraries} {St}
    (salt now : string) (user : UserCreate) : M St response :=
  _ ← with_connection (
        let q := SelectIdByUsernameOrEmail (uc_username user) (uc_email user) in
        c ← execute q;
        existing ← fetchone q c;
        match existing with
        | Some _ =>
            raise (HTTPException 400 (Detail "Username or email already registered"))
        | None =>
            hashed_password ← evaluate (pwd_hash salt (uc_password user));
            _ ← execute (InsertUser (uc_username user) (uc_email user) hashed_password
                           (uc_full_name user) now);
            commit
        end);
  mret (JSONResponse [("message", "User created successfully")] 201).

(** [create_access_token], with times in seconds; a zero [expires_delta] is
    false and gives the default. *)
Definition create_access_token `{Deployment} `{Libraries}
    (now : Z) (data : claims) (expires_delta : option Z) : string :=
  let delta := match expires_delta with
               | Some d => if bool_decide (d = 0) then ACCESS_TOKEN_EXPIRE_MINUTES * 60 else d
               | None => ACCESS_TOKEN_EXPIRE_MINUTES * 60
               end in
  let expire := now + delta in
  jwt_encode (Claims (claim_sub data) (Some expire)) (SECRET_KEY environ) ALGORITHM.

(** A cookie set on a response. *)
Record cookie := Cookie {
  cookie_key : string;
  cookie_value : string;
  cookie_httponly : bool;
  cookie_max_age : Z;
  cookie_samesite : string }.

(** [login_for_access_token_api]: the response body and the cookie set. *)
Definition login_for_access_token_api `{Deployment} `{Libraries} {St}
    (now : Z) (form_username form_password : string) : M St (response * cookie) :=
  user ← with_connection (
    user ← get_user form_username;
    match user with
    | None => raise (HTTPException 401 (Detail "Invalid username or password"))
    | Some user =>
        verified ← await (pwd_verify form_password (hashed_password (cu_row user)));
        if negb verified
        then raise (HTTPException 401 (Detail "Invalid username or password"))
        else mret user
    end);
  let delta := ACCESS_TOKEN_EXPIRE_MINUTES * 60 in
  let token := create_access_token now (Claims (Some (username (cu_row user))) None)
                 (Some delta) in
  mret (JSONResponse [("access_token", token); ("token_type", "bearer")] 200,
        Cookie "access_token" ("Bearer " +:+ token) true delta "Lax").

(** An uploaded file: its name, its bytes, its content type. *)
Record upload_file := UploadFile {
  uf_filename : option string;
  uf_contents : string;
  uf_content_type : string }.

(** [update_user_profile], when [int(time.time())] is [timestamp]. *)
Definition update_user_profile `{Deployment} `{Libraries} {St}
    (timestamp : Z) (current_user : current_user) (new_full_name new_email : string)
    (profile_picture_file : option upload_file) : M St response :=
  new_profile_pic_url ←
    match profile_picture_file with
    | None => mret (profile_picture_url (cu_row current_user))
    | Some file =>
        if negb (truthy (uf_filename file))
        then mret (profile_picture_url (cu_row current_user))
        else if negb (default false firebase_service)
        then raise (HTTPException 503 (Detail "File upload service is not configured."))
        else
          let destination_blob_name :=
            "profile_pictures/user_" +:+ pretty (cu_id current_user) +:+ "/"
            +:+ pretty timestamp +:+ "_" +:+ str_of (uf_filename file) in
          let uploaded_url :=
            upload_file_from_bytes (uf_contents file) destination_blob_name
              (uf_content_type file) in
          if truthy uploaded_url then mret uploaded_url
          else raise (HTTPException 500
                        (Detail "Failed to upload profile picture to cloud storage."))
    end;
  _ ← with_connection (
        _ ← (if bool_decide (new_email ≠ email (cu_row current_user)) then
               let q := SelectIdByEmailExcept new_email (cu_id current_user) in
               c ← execute q;
               taken ← fetchone q c;
               match taken with
               | Some _ => raise (HTTPException 400
                                    (Detail "Email already in use by another account."))
               | None => mret tt
               end
             else mret tt);
        _ ← execute (UpdateUserProfile new_full_name new_email new_profile_pic_url
                       (cu_id current_user));
        commit);
  mret (JSONResponse [("message", "Profile updated successfully!")] 200).

(** Test libraries: a hash that wraps the password and refuses one of more
    than 4096 characters, a token that wraps the subject, a storage that
    accepts every file. *)
Definition test_libraries : Libraries :=
  {| pwd_hash := λ salt p,
       if (4096 <? String.length p)%nat
       then inl (ValueError "password exceeds maximum allowed size")
       else inr ("hash(" +:+ p +:+ ")");
     pwd_verify := λ p h,
       if String.prefix "hash(" h then inr (bool_decide (h = "hash(" +:+ p +:+ ")"))
       else inl (ValueError "hash could not be identified");
     jwt_encode := λ c _ _, "jwt:" +:+ str_of (claim_sub c);
     jwt_decode := λ _ token _ _,
       if String.prefix "jwt:" token
       then Some (Claims (Some (String.substring 4 (String.length token - 4) token)) None)
       else None;
     firebase_service := Some true;
     upload_file_from_bytes := λ _ name _, Some ("https://storage.example/" +:+ name) |}.

Definition carol : UserCreate :=
  {| uc_username := "carol"; uc_email := "carol@example.com";
     uc_password := "correct horse"; uc_full_name := "Carol" |}.

End Auth.

(** ** 16. Readings of the account tables *)

(** Some account has this username or this email. *)
Definition account_taken (d : store) (name mail : string) : Prop :=
  ∃ k u, users d !! k = Some u ∧ (username u = name ∨ email u = mail).

(** An account other than [id] has this email. *)
Definition email_taken_by_other (d : store) (mail : string) (id : Z) : Prop :=
  ∃ k u, users d !! k = Some u ∧ email u = mail ∧ k ≠ id.

(** The columns of [users] the profile form does not write. *)
Definition profile_keeps_user (u u' : user) : Prop :=
  username u' = username u ∧ hashed_password u' = hashed_password u
  ∧ role u' = role u ∧ created_at u' = created_at u
  ∧ subscription_plan u' = subscription_plan u
  ∧ subscription_status u' = subscription_status u
  ∧ stripe_customer_id u' = stripe_customer_id u
  ∧ subscription_id u' = subscription_id u.

(** ** 17. Dependencies and the middleware (app.py, lines 222-249, 840-856) *)

Definition get_current_active_user {St} (user : current_user) : M St current_user :=
  mret user.

(** [Depends(get_current_user)], with its own [Depends(get_token_from_cookie)],
    on the cookies of the request. *)
Definition depends_get_current_user `{Deployment} `{Auth.Libraries} {St}
    (now : Z) (cookies : gmap string string) : M St current_user :=
  token ← await (Auth.get_token_from_cookie cookies);
  Auth.get_current_user now token.

(** [Depends(is_admin)], the dependency of every admin endpoint. *)
Definition depends_is_admin `{Deployment} `{Auth.Libraries} {St}
    (now : Z) (cookies : gmap string string) : M St current_user :=
  user ← depends_get_current_user now cookies;
  user ← get_current_active_user user;
  Auth.is_admin user.

(** The middleware [add_user_to_state]: it computes [request.state.user] and
    hands the request to [call_next]. [JWTError] and [sqlite3.Error] are
    passed over; of the exceptions modelled, [IntegrityError] is the
    [sqlite3.Error]. *)
Definition add_user_to_state `{Deployment} `{Auth.Libraries} {St A}
    (now : Z) (cookies : gmap string string)
    (call_next : option current_user → M St A) : M St A :=
  state_user ← (
    token ← await (Auth.get_token_from_cookie cookies);
    if truthy token then
      match Auth.jwt_decode now (str_of token) (Auth.SECRET_KEY environ)
              [Auth.ALGORITHM] with
      | None => mret None
      | Some payload =>
          let username := Auth.claim_sub payload in
          if truthy username then
            try_except
              (with_connection (
                 c ← execute (SelectUserByUsername (str_of username));
                 fetchone_user c (str_of username)))
              (λ e, match e with
                    | IntegrityError _ => mret None
                    | _ => raise e
                    end)
          else mret None
      end
    else mret None);
  call_next state_user.

(** The user with this id is an administrator. *)
Definition admin_row (d : store) (k : Z) : Prop :=
  ∃ u, users d !! k = Some u ∧ role u = Some "admin".

(** The role of a row is kept. *)
Definition keeps_role (u u' : user) : Prop := role u' = role u.

(** ** 18. Blog administration and the contact form
    (app.py, lines 130-132, 1572-1622, 1810-1818) *)

Module Site.

(** A row of [blog_posts] and a row of [contact_messages]. *)
Record post := Post {
  post_title : string;
  post_slug : string;
  post_content : string;
  post_author_id : option Z;
  post_published_at : option string;
  post_image_url : option string;
  post_tags : option string }.

Record message := Message {
  msg_name : string;
  msg_email : string;
  msg_subject : option string;
  msg_message : string;
  msg_received_at : option string;
  msg_is_read : option bool }.

Record tables := Tables {
  blog_posts : gmap Z post;
  contact_messages : gmap Z message }.

Inductive site_sql :=
(** [INSERT INTO blog_posts (title, slug, content, author_id, image_url, tags)
    VALUES (?, ?, ?, ?, ?, ?)], run when CURRENT_TIMESTAMP is [now] *)
| InsertPost (title slug content : string) (author_id : Z)
    (image_url tags : option string) (now : string)
(** [UPDATE blog_posts SET title=?, slug=?, content=?, image_url=?, tags=?
    WHERE id=?] *)
| UpdatePost (title slug content : string) (image_url tags : option string) (id : Z)
(** [DELETE FROM blog_posts WHERE id=?] *)
| DeletePost (id : Z)
(** [INSERT INTO contact_messages (name, email, subject, message)
    VALUES (?, ?, ?, ?)] *)
| InsertMessage (name email : string) (subject : option string) (message now : string).

(** The UNIQUE constraint on [blog_posts.slug]: a row other than [id] holds
    the slug. *)
Definition slug_conflict (s : string) (id : option Z) (ps : gmap Z post) : bool :=
  bool_decide (map_Exists (λ k p, Some k ≠ id ∧ post_slug p = s) ps).

Definition exec_site_sql (q : site_sql) (t : tables) : exn + tables :=
  match q with
  | InsertPost title slug content author image tags now =>
      if slug_conflict slug None (blog_posts t)
      then inl (IntegrityError "UNIQUE constraint failed: blog_posts.slug")
      else inr (Tables (<[Auth.next_rowid (blog_posts t) :=
                            Post title slug content (Some author) (Some now) image tags]>
                          (blog_posts t))
                  (contact_messages t))
  | UpdatePost title slug content image tags id =>
      match blog_posts t !! id with
      | None => inr t
      | Some p =>
          if slug_conflict slug (Some id) (blog_posts t)
          then inl (IntegrityError "UNIQUE constraint failed: blog_posts.slug")
          else inr (Tables (<[id := Post title slug content (post_author_id p)
                                      (post_published_at p) image tags]> (blog_posts t))
                      (contact_messages t))
      end
  | DeletePost id => inr (Tables (delete id (blog_posts t)) (contact_messages t))
  | InsertMessage name mail subject text now =>
      inr (Tables (blog_posts t)
             (<[Auth.next_rowid (contact_messages t) :=
                  Message name mail subject text (Some now) (Some false)]>
                (contact_messages t)))
  end.

(** The committed tables and the tables as the open connection sees them. *)
Record site := SiteWorld {
  site_db : tables;
  site_conn : option tables }.

Definition T (A : Type) : Type := site → (exn + A) * site.

#[global] Instance T_ret : MRet T := λ A a s, (inr a, s).
#[global] Instance T_bind : MBind T := λ A B f m s,
  match m s with
  | (inr a, s') => f a s'
  | (inl e, s') => (inl e, s')
  end.

Definition raise {A} (e : exn) : T A := λ s, (inl e, s).

Definition try_except {A} (body : T A) (handler : exn → T A) : T A := λ s,
  match body s with
  | (inr a, s') => (inr a, s')
  | (inl e, s') => handler e s'
  end.

Definition execute (q : site_sql) : T cursor := λ s,
  match exec_site_sql q (default (site_db s) (site_conn s)) with
  | inl e => (inl e, s)
  | inr t => (inr Cursor, SiteWorld (site_db s) (Some t))
  end.

Definition commit : T unit := λ s,
  (inr tt, SiteWorld (default (site_db s) (site_conn s)) (site_conn s)).

Definition cursor_commit (c : cursor) : T unit :=
  raise (AttributeError "'sqlite3.Cursor' object has no attribute 'commit'").

Definition with_connection {A} (body : T A) : T A := λ s,
  match body (SiteWorld (site_db s) (Some (site_db s))) with
  | (inr a, s') => (inr a, SiteWorld (default (site_db s') (site_conn s')) None)
  | (inl e, s') => (inl e, SiteWorld (site_db s') None)
  end.

(** [str(e)]: the message of an exception raised with one message; of an
    [HTTPException], the status code and the detail as Starlette prints
    them. *)
Fixpoint str (e : exn) : string :=
  match e with
  | HTTPException status_code d =>
      pretty status_code +:+ ": "
      +:+ match d with
          | Detail text => text
          | StrOf e' => str e'
          end
  | ValueError msg | SignatureVerificationError msg | StripeError msg
  | AttributeError msg | IndexError msg | IntegrityError msg => msg
  end.

(** [admin_blog_create], when CURRENT_TIMESTAMP is [now]; [user] is the
    administrator [Depends(is_admin)] yields. The slug is the one of section
    14, which is Python's for an ASCII title; the properties that name the
    slug are stated for ASCII titles. *)
Definition admin_blog_create (now : string) (user : current_user)
    (title content : string) (image_url tags : option string) : T response :=
  let new_slug := slugify title in
  _ ← with_connection (
        _ ← execute (InsertPost title new_slug content (cu_id user) image_url tags now);
        commit);
  mret (RedirectResponse "/admin/blog" 303).

Definition admin_blog_update (post_id : Z) (user : current_user)
    (title content : string) (image_url tags : option string) : T response :=
  let new_slug := slugify title in
  _ ← with_connection (
        _ ← execute (UpdatePost title new_slug content image_url tags post_id);
        commit);
  mret (RedirectResponse "/admin/blog" 303).

Definition admin_blog_delete (post_id : Z) (user : current_user) : T response :=
  _ ← with_connection (
        _ ← execute (DeletePost post_id);
        commit);
  mret (RedirectResponse "/admin/blog" 303).

Record ContactFormModel := {
  cf_name : string;
  cf_email : string;
  cf_subject : option string;
  cf_message : string }.

(** [handle_contact_form_api], when CURRENT_TIMESTAMP is [now]. *)
Definition handle_contact_form_api (now : string) (form_data : ContactFormModel)
    : T response :=
  try_except (
    _ ← with_connection (
          c ← execute (InsertMessage (cf_name form_data) (cf_email form_data)
                         (cf_subject form_data) (cf_message form_data) now);
          cursor_commit c);
    mret (JSONResponse
            [("message", "Message sent successfully! We will get back to you soon.")]
            200))
    (λ e, raise (HTTPException 500 (Detail ("Database error: " +:+ str e)))).

(** Every stored slug is in normal form; no two posts share a slug. *)
Definition clean_slugs (ps : gmap Z post) : Prop :=
  ∀ k p, ps !! k = Some p → clean_slug (post_slug p) = true.

Definition unique_slugs (ps : gmap Z post) : Prop :=
  ∀ k1 k2 p1 p2, ps !! k1 = Some p1 → ps !! k2 = Some p2 →
                 post_slug p1 = post_slug p2 → k1 = k2.

(** Test data: an administrator and a first post. *)
Definition dave : current_user :=
  CurrentUser 7 (User "dave" "dave@example.com" "hash(pw)" (Some "Dave") (Some "admin")
                   (Some "2024-01-01 00:00:00") (Some "none") None None None None).

Definition first_post : post :=
  Post "Hello World" "hello-world" "Text" (Some 7) (Some "2024-01-02 00:00:00") None None.

Definition one_post : site := SiteWorld (Tables (<[1 := first_post]> ∅) ∅) None.

Definition second_post : post :=
  Post "Release notes" "release-notes" "Text" (Some 7) (Some "2024-01-03 00:00:00")
    None None.

Definition two_posts : site :=
  SiteWorld (Tables (<[2 := second_post]> (<[1 := first_post]> ∅)) ∅) None.

Definition contact_form : ContactFormModel :=
  {| cf_name := "Erin"; cf_email := "erin@example.com"; cf_subject := None;
     cf_message := "Hello" |}.

End Site.

(** * Properties *)

(** ** Entitlement *)

Lemma PLAN_HIERARCHY_plan (p : plan) : PLAN_HIERARCHY !! plan_name p = Some (rank p).
Proof. by destruct p. Qed.

Lemma PLAN_HIERARCHY_unrecognized (s : string) :
  unrecognized s → PLAN_HIERARCHY !! s = None.
Proof.
  intros Hs. unfold PLAN_HIERARCHY.
  rewrite !lookup_insert_ne; [apply lookup_empty | ..].
  - exact (not_eq_sym (Hs PlanNone)).
  - exact (not_eq_sym (Hs PlanBasic)).
  - exact (not_eq_sym (Hs PlanPremium)).
  - exact (not_eq_sym (Hs PlanUltimate)).
Qed.

Lemma level_bounds (s : string) : 0 <= dict_get PLAN_HIERARCHY s 0 <= 3.
Proof.
  unfold dict_get, PLAN_HIERARCHY.
  destruct (decide (s = "ultimate")) as [->|?]; [by vm_compute|].
  destruct (decide (s = "premium")) as [->|?]; [by vm_compute|].
  destruct (decide (s = "basic")) as [->|?]; [by vm_compute|].
  destruct (decide (s = "none")) as [->|?]; [by vm_compute|].
  rewrite !lookup_insert_ne, lookup_empty by done. simpl. lia.
Qed.

(** C1: on the four tiers [user_has_access] is the comparison of ranks; an
    unrecognized required plan is never satisfied; an unrecognized user plan
    is treated as "none". *)
Theorem user_has_access_spec :
  (∀ u r : plan, user_has_access (plan_name u) (plan_name r) = (rank u >=? rank r))
  ∧ (∀ r : string, unrecognized r → ∀ u : string, user_has_access u r = false)
  ∧ (∀ u : string, unrecognized u →
       ∀ r : string, user_has_access u r = user_has_access "none" r).
Proof.
  split; [|split].
  - intros u r. unfold user_has_access, dict_get.
    by rewrite !PLAN_HIERARCHY_plan.
  - intros r Hr u. unfold user_has_access.
    pose proof (level_bounds u) as Hu.
    unfold dict_get at 2. rewrite (PLAN_HIERARCHY_unrecognized r Hr). simpl.
    rewrite Z.geb_leb. apply Z.leb_gt. lia.
  - intros u Hu r. unfold user_has_access.
    unfold dict_get at 1 3. by rewrite (PLAN_HIERARCHY_unrecognized u Hu).
Qed.

(** ** Running the handlers *)

Section Reconciliation.
Context {St : Type} `{!Deployment} `{!Processor St}.
Implicit Types (w : world St) (d : store) (q : sql).

(** One statement and its commit inside a [with] block: the statement's
    changes are committed, or the block is left by the statement's exception
    and nothing changes. *)
Lemma with_connection_update q w :
  with_connection (_ ← execute q; commit) w =
  match exec_sql q (db w) with
  | inr d =>
      (inr tt, World d None (stripe w)
                 (trace w ++ [DbConnect; DbExecute q; DbCommit; DbCommit]))
  | inl e =>
      (inl e, World (db w) None (stripe w)
                (trace w ++ [DbConnect; DbExecute q; DbRollback]))
  end.
Proof.
  unfold with_connection, execute, commit, mbind, M_bind, log. simpl.
  destruct (exec_sql q (db w)); simpl; by rewrite <- !app_assoc.
Qed.

Lemma update_user_by_id_orders id column v name f d d' :
  update_user_by_id id column v name f d = inr d' → orders d' = orders d.
Proof.
  unfold update_user_by_id. intros Hrun.
  destruct (rowid_of id); [|by simplify_eq].
  destruct (users d !! _); [|by simplify_eq].
  destruct (unique_conflict _ _ _ _); by simplify_eq.
Qed.

Lemma carries_user_id_true session :
  carries_user_id session = true →
  ∃ user_id, session_user_id session = inr user_id ∧ truthy user_id = true.
Proof.
  unfold carries_user_id. destruct (session_user_id session) as [e|user_id]; [done|].
  by exists user_id.
Qed.

(** The completed-checkout handler in subscription mode, step by step: it
    asks the processor for the subscription and, when it gets one, fails on
    [subscription_data.items.data]; no connection is opened. *)
Lemma handle_checkout_subscription session w :
  carries_user_id session = true →
  so_mode session = "subscription" →
  handle_checkout_session_completed session w =
  let w1 := log (StripeCall (SubscriptionRetrieve (so_subscription session))) w in
  match Subscription_retrieve (stripe w) (so_subscription session) with
  | inl e => (inl e, w1)
  | inr _ =>
      (inl (AttributeError "'builtin_function_or_method' object has no attribute 'data'"),
       w1)
  end.
Proof.
  intros (user_id & Huid & Htruthy)%carries_user_id_true Hmode.
  unfold handle_checkout_session_completed, evaluate.
  unfold mbind at 1, M_bind at 1. rewrite Huid, Htruthy, Hmode. simpl.
  unfold mbind at 1, M_bind at 1, stripe_Subscription_retrieve.
  by destruct (Subscription_retrieve _ _) as [e|sd].
Qed.

(** What the handler does before it looks at the mode. *)
Lemma handle_checkout_without_user_id session w :
  carries_user_id session = false →
  handle_checkout_session_completed session w
  = match session_user_id session with
    | inl e => (inl e, w)
    | inr _ => (inr tt, w)
    end.
Proof.
  unfold carries_user_id, handle_checkout_session_completed, evaluate, mbind, M_bind.
  destruct (session_user_id session) as [e|user_id]; [done|]. by intros ->.
Qed.

(** ** Webhook reconciler *)

(** C2: a webhook request whose signature does not verify is answered with
    the client error 400, and the world is exactly what it was: no connection
    is opened, no statement is executed, nothing is written. *)
Theorem webhook_rejects_unverified_signature request w e :
  Webhook_construct_event (stripe w) (body request)
    (headers request !! "stripe-signature") (STRIPE_WEBHOOK_SECRET environ) = inl e →
  (∃ msg, e = SignatureVerificationError msg ∨ e = ValueError msg) →
  stripe_webhook_api request w = (inl (HTTPException 400 (StrOf e)), w)
  ∧ http_status (stripe_webhook_api request w).1 = 400.
Proof.
  intros Hverify [msg He].
  assert (stripe_webhook_api request w = (inl (HTTPException 400 (StrOf e)), w)) as Hrun.
  { unfold stripe_webhook_api, mbind, M_bind, try_except, stripe_Webhook_construct_event.
    rewrite Hverify. by destruct He as [-> | ->]. }
  by rewrite Hrun.
Qed.

(** C3: handling the same completed-checkout event in subscription mode a
    second time leaves the store (hence every user record) as the first
    handling left it; and the first handling leaves it as it found it. *)
Theorem checkout_subscription_idempotent session w :
  so_mode session = "subscription" →
  let once := (handle_checkout_session_completed session w).2 in
  let twice := (handle_checkout_session_completed session once).2 in
  db twice = db once ∧ db once = db w.
Proof.
  intros Hmode once twice. subst twice once.
  destruct (carries_user_id session) eqn:Huid.
  - rewrite (handle_checkout_subscription session w Huid Hmode). cbv zeta.
    destruct (Subscription_retrieve (stripe w) (so_subscription session))
      as [e|sd] eqn:Hsd;
      rewrite (handle_checkout_subscription _ _ Huid Hmode); simpl; by rewrite Hsd.
  - rewrite (handle_checkout_without_user_id session w Huid).
    destruct (session_user_id session) as [e|user_id] eqn:Hid;
      rewrite (handle_checkout_without_user_id _ _ Huid); by rewrite Hid.
Qed.

Lemma handle_checkout_payment session w :
  carries_user_id session = true →
  so_mode session = "payment" →
  handle_checkout_session_completed session w =
  with_connection (_ ← execute (UpdateOrderCompleted (so_id session)); commit) w.
Proof.
  intros (user_id & Huid & Htruthy)%carries_user_id_true Hmode.
  unfold handle_checkout_session_completed, evaluate.
  unfold mbind at 1, M_bind at 1. by rewrite Huid, Htruthy, Hmode.
Qed.

Lemma set_status_completed o :
  status o = Some "completed" → set_status (Some "completed") o = o.
Proof. destruct o. simpl. by intros ->. Qed.

(** C4, as the code has it: a completed-checkout event in payment mode (with
    a user id in its metadata) sets to 'completed' every Order that carries
    the event's checkout-session reference, whatever its status was; Orders
    of other sessions and Orders already 'completed' are unchanged, no Order
    appears or disappears, no user changes, and the webhook answers success. *)
Theorem payment_checkout_completes_matching_orders request w ev :
  Webhook_construct_event (stripe w) (body request)
    (headers request !! "stripe-signature") (STRIPE_WEBHOOK_SECRET environ) = inr ev →
  ev_type ev = "checkout.session.completed" →
  so_mode (ev_object ev) = "payment" →
  carries_user_id (ev_object ev) = true →
  let r := stripe_webhook_api request w in
  r.1 = inr (JSONResponse [("status", "success")] 200)
  ∧ users (db r.2) = users (db w)
  ∧ (∀ k o, orders (db w) !! k = Some o →
       stripe_session_id o = Some (so_id (ev_object ev)) →
       orders (db r.2) !! k = Some (set_status (Some "completed") o))
  ∧ (∀ k o, orders (db w) !! k = Some o →
       stripe_session_id o ≠ Some (so_id (ev_object ev)) ∨ status o = Some "completed" →
       orders (db r.2) !! k = Some o)
  ∧ (∀ k, orders (db w) !! k = None → orders (db r.2) !! k = None).
Proof.
  intros Hverify Htype Hmode Huid r. subst r.
  unfold stripe_webhook_api, mbind, M_bind, try_except, stripe_Webhook_construct_event.
  rewrite Hverify, Htype. rewrite bool_decide_eq_true_2 by done.
  rewrite (handle_checkout_payment _ _ Huid Hmode), with_connection_update. simpl.
  split; [done|]. split; [done|]. split; [|split].
  - intros k o Ho Hsid. rewrite lookup_fmap, Ho. simpl.
    by rewrite bool_decide_eq_true_2.
  - intros k o Ho Hcase. rewrite lookup_fmap, Ho. simpl.
    case_bool_decide as Hsid; [|done].
    destruct Hcase as [?|Hdone]; [done|]. by rewrite set_status_completed.
  - intros k Hk. by rewrite lookup_fmap, Hk.
Qed.

Lemma handle_invoice_paid_raises invoice w :
  truthy (so_subscription invoice) = true →
  handle_invoice_paid invoice w =
  (inl (AttributeError "'sqlite3.Cursor' object has no attribute 'commit'"),
   World (db w) None (stripe w)
     (trace w ++ [DbConnect; DbExecute (UpdateUserActive (str_of (so_subscription invoice)));
                  DbRollback])).
Proof.
  intros Hsub. unfold handle_invoice_paid. rewrite Hsub.
  unfold with_connection, execute, cursor_commit, raise, mbind, M_bind, log. simpl.
  by rewrite <- !app_assoc.
Qed.

(** Every authentic invoice-paid event that names a subscription is answered
    with a server error: the handler calls [commit] on the cursor, the
    exception leaves the [with] block, and the UPDATE is rolled back. *)
Lemma invoice_paid_is_server_error request w ev :
  Webhook_construct_event (stripe w) (body request)
    (headers request !! "stripe-signature") (STRIPE_WEBHOOK_SECRET environ) = inr ev →
  ev_type ev = "invoice.payment_succeeded" →
  truthy (so_subscription (ev_object ev)) = true →
  let r := stripe_webhook_api request w in
  r.1 = inl (AttributeError "'sqlite3.Cursor' object has no attribute 'commit'")
  ∧ http_status r.1 = 500
  ∧ db r.2 = db w.
Proof.
  intros Hverify Htype Hsub r. subst r.
  unfold stripe_webhook_api, mbind, M_bind, try_except, stripe_Webhook_construct_event.
  rewrite Hverify, Htype. rewrite bool_decide_eq_false_2 by done.
  rewrite bool_decide_eq_true_2 by done.
  by rewrite (handle_invoice_paid_raises _ _ Hsub).
Qed.

(** Every authentic completed-checkout event in subscription mode that
    carries a user id, and whose subscription the processor finds, is answered
    with a server error: the handler fails on [subscription_data.items.data]
    before it looks up the plan, no statement is executed, and the store is
    what it was. *)
Lemma subscription_checkout_raises request w ev subscription_data :
  Webhook_construct_event (stripe w) (body request)
    (headers request !! "stripe-signature") (STRIPE_WEBHOOK_SECRET environ) = inr ev →
  ev_type ev = "checkout.session.completed" →
  so_mode (ev_object ev) = "subscription" →
  carries_user_id (ev_object ev) = true →
  Subscription_retrieve (stripe w) (so_subscription (ev_object ev))
  = inr subscription_data →
  let r := stripe_webhook_api request w in
  r.1 = inl (AttributeError
               "'builtin_function_or_method' object has no attribute 'data'")
  ∧ http_status r.1 = 500
  ∧ db r.2 = db w
  ∧ trace r.2
    = (trace w ++ [StripeCall (SubscriptionRetrieve (so_subscription (ev_object ev)))])%list.
Proof.
  intros Hverify Htype Hmode Huid Hsub r. subst r.
  unfold stripe_webhook_api, mbind, M_bind, try_except, stripe_Webhook_construct_event.
  rewrite Hverify, Htype. rewrite bool_decide_eq_true_2 by done.
  rewrite (handle_checkout_subscription _ _ Huid Hmode). cbv zeta.
  by rewrite Hsub.
Qed.

(** ** Checkout session initiator *)

(** Case analysis on the next outcome the handler branches on. *)
Ltac step_run :=
  match goal with
  | |- context [match ?x with _ => _ end] =>
      lazymatch x with
      | context [match _ with _ => _ end] => fail
      | _ => destruct x eqn:?
      end
  | |- context [if ?x then _ else _] =>
      lazymatch x with
      | context [match _ with _ => _ end] => fail
      | context [if _ then _ else _] => fail
      | _ => destruct x eqn:?
      end
  end; simpl in *.

Ltac unfold_checkout :=
  unfold create_checkout_session_api, try_except, mbind, M_bind, await, raise, index0,
    stripe_Price_retrieve, stripe_Customer_create, stripe_checkout_Session_create,
    with_connection, execute, commit, mret, M_ret, log; simpl.

(** Membership of an effect in an explicit trace. *)
Ltac in_trace H :=
  repeat match type of H with
         | _ ∈ _ :: _ => apply elem_of_cons in H as [H|H]
         | _ ∈ [] => by apply elem_of_nil in H
         end;
  simplify_eq.

(** No path of the checkout initiator writes to [orders]. *)
Lemma checkout_keeps_orders request current_user w :
  orders (db (create_checkout_session_api request current_user w).2) = orders (db w).
Proof.
  unfold_checkout. repeat step_run; eauto using update_user_by_id_orders.
Qed.

(** An empty (or absent) list of line items: the 400 raised for it is caught
    by the handler's own [except Exception] and answered as 500; the
    processor is not called and nothing is written. *)
Lemma empty_cart_is_server_error request current_user w items :
  request_line_items request = inr items →
  truthy_list items = false →
  create_checkout_session_api request current_user w
  = (inl (HTTPException 500 (StrOf (HTTPException 400 (Detail "No items to purchase.")))),
     w).
Proof. intros Hitems Hempty. unfold_checkout. by rewrite Hitems, Hempty. Qed.

(** Every session a request opens has the mode of its first line item's
    price, and no other price is retrieved. *)
Lemma checkout_sessions_have_first_mode request current_user w first rest :
  request_line_items request = inr (Some (first :: rest)) →
  let r := create_checkout_session_api request current_user w in
  ∃ new, trace r.2 = (trace w ++ new)%list
    ∧ (∀ m, m ∈ session_modes new →
         ∃ info, Price_retrieve (stripe w) (price first) = inr info
                 ∧ m = if recurring info then "subscription" else "payment")
    ∧ (∀ id, StripeCall (PriceRetrieve id) ∈ new → id = price first).
Proof.
  intros Hitems r. subst r. unfold_checkout. rewrite Hitems. simpl.
  repeat step_run; rewrite <- ?app_assoc; simpl;
    (eexists; split; [reflexivity|]); unfold session_modes; simpl;
    (split; [intros m Hm | intros id Hid]);
    try (in_trace Hm); try (in_trace Hid); try done;
    eexists; (split; [done|]);
    match goal with Hrec : recurring _ = _ |- _ => by rewrite Hrec end.
Qed.

(** When the first price is found and there is a customer, the request asks
    the processor for exactly one session, in the mode of that price. *)
Lemma checkout_opens_session request current_user w first rest info :
  request_line_items request = inr (Some (first :: rest)) →
  Price_retrieve (stripe w) (price first) = inr info →
  customer_available current_user w →
  let r := create_checkout_session_api request current_user w in
  ∃ new, trace r.2 = (trace w ++ new)%list
    ∧ session_modes new = [if recurring info then "subscription" else "payment"].
Proof.
  intros Hitems Hprice Hcustomer r. subst r. unfold_checkout.
  rewrite Hitems. simpl. rewrite Hprice. simpl.
  destruct (truthy (stripe_customer_id (cu_row current_user))) eqn:Hsome; simpl.
  - repeat step_run; rewrite <- ?app_assoc; by eexists.
  - destruct Hcustomer as [?|(c & s & Hcreate & Hfree)]; [congruence|].
    rewrite Hcreate. simpl. unfold update_user_by_id. simpl.
    destruct (users (db w) !! cu_id current_user) as [u|]; rewrite ?Hfree; simpl;
      repeat step_run; rewrite <- ?app_assoc; by eexists.
Qed.

(** The sessions a request asks for do not depend on the line items after
    the first, nor on anything else in the request. *)
Lemma checkout_modes_ignore_rest request request' current_user w first rest rest' :
  request_line_items request = inr (Some (first :: rest)) →
  request_line_items request' = inr (Some (first :: rest')) →
  ∃ new new',
    trace (create_checkout_session_api request current_user w).2 = (trace w ++ new)%list
    ∧ trace (create_checkout_session_api request' current_user w).2
      = (trace w ++ new')%list
    ∧ session_modes new' = session_modes new.
Proof.
  intros Hitems Hitems'. unfold_checkout. rewrite Hitems, Hitems'. simpl.
  destruct (Price_retrieve (stripe w) (price first)) as [e|info]; simpl.
  { rewrite <- ?app_assoc. by eexists _, _. }
  destruct (truthy (stripe_customer_id (cu_row current_user))); simpl.
  { repeat step_run; rewrite <- ?app_assoc; by eexists _, _. }
  destruct (Customer_create _ _ _) as [[e|c] s]; simpl.
  { rewrite <- ?app_assoc. by eexists _, _. }
  destruct (update_user_by_id _ _ _ _ _ _) as [e|d]; simpl.
  { rewrite <- ?app_assoc. by eexists _, _. }
  repeat step_run; rewrite <- ?app_assoc; by eexists _, _.
Qed.

(** C10: with a non-empty list of line items, every checkout session the
    request opens has the mode given by the [recurring] attribute of the
    first line item's price, and no other price is retrieved; when that price
    is found and there is a customer to open the session for, the request
    does ask the processor for a session, exactly one, in that mode; and a
    request with the same first line item and any other line items after it
    asks for the same sessions. *)
Theorem checkout_mode_from_first_item request current_user w first rest :
  request_line_items request = inr (Some (first :: rest)) →
  let r := create_checkout_session_api request current_user w in
  ∃ new, trace r.2 = (trace w ++ new)%list
    ∧ (∀ m, m ∈ session_modes new →
         ∃ info, Price_retrieve (stripe w) (price first) = inr info
                 ∧ m = if recurring info then "subscription" else "payment")
    ∧ (∀ id, StripeCall (PriceRetrieve id) ∈ new → id = price first)
    ∧ (∀ info, Price_retrieve (stripe w) (price first) = inr info →
         customer_available current_user w →
         session_modes new = [if recurring info then "subscription" else "payment"])
    ∧ (∀ request' rest',
         request_line_items request' = inr (Some (first :: rest')) →
         ∃ new', trace (create_checkout_session_api request' current_user w).2
                 = (trace w ++ new')%list
                 ∧ session_modes new' = session_modes new).
Proof.
  intros Hitems r. subst r.
  destruct (checkout_sessions_have_first_mode _ current_user w _ _ Hitems)
    as (new & Htrace & Hmodes & Hprices).
  exists new. split; [done|]. split; [done|]. split; [done|]. split.
  - intros info Hprice Hcustomer.
    destruct (checkout_opens_session _ _ _ _ _ _ Hitems Hprice Hcustomer)
      as (new1 & Htrace1 & Hopened).
    cbv zeta in Htrace, Htrace1. rewrite Htrace in Htrace1.
    by apply app_inv_head in Htrace1 as ->.
  - intros request' rest' Hitems'.
    destruct (checkout_modes_ignore_rest _ _ current_user w _ _ _ Hitems Hitems')
      as (new1 & new' & Htrace1 & Htrace' & Hsame).
    cbv zeta in Htrace. rewrite Htrace in Htrace1.
    apply app_inv_head in Htrace1 as ->. by exists new'.
Qed.

(** *** Two checkout initiations one after the other *)

Lemma customers_created_app t1 t2 :
  customers_created (t1 ++ t2) = (customers_created t1 + customers_created t2)%nat.
Proof. unfold customers_created. by rewrite List.filter_app, length_app. Qed.

Lemma session_customers_app t1 t2 :
  session_customers (t1 ++ t2) = (session_customers t1 ++ session_customers t2)%list.
Proof. unfold session_customers. by rewrite omap_app, fmap_app. Qed.

Lemma select_user_unique d name k u :
  unique_usernames (users d) →
  users d !! k = Some u → username u = name →
  select_user d name = Some (CurrentUser k u).
Proof.
  intros Huniq Hu Hname. unfold select_user.
  destruct (head _) as [[k' u']|] eqn:Hhead; simpl.
  - apply head_Some_elem_of, list_elem_of_filter in Hhead as [Hname' Hin].
    apply elem_of_map_to_list in Hin. simpl in Hname'.
    assert (k' = k) as -> by (eapply Huniq; eauto; congruence).
    congruence.
  - apply head_None in Hhead.
    assert ((k, u) ∈ filter (λ kv : Z * user, username kv.2 = name)
                        (map_to_list (users d))) as Hin.
    { apply list_elem_of_filter. split; [done|]. by apply elem_of_map_to_list. }
    rewrite Hhead in Hin. by apply elem_of_nil in Hin.
Qed.

Lemma unique_usernames_insert us k u u' :
  unique_usernames us → us !! k = Some u → username u' = username u →
  unique_usernames (<[k := u']> us).
Proof.
  intros Huniq Hu Hname k1 k2 u1 u2 H1 H2 Heq.
  apply lookup_insert_Some in H1 as [[<- <-]|[? H1]];
    apply lookup_insert_Some in H2 as [[<- <-]|[? H2]]; try done.
  - eapply Huniq; eauto. congruence.
  - eapply Huniq; eauto. congruence.
  - eapply Huniq; eauto.
Qed.

(** The dependency reads the user row by username and leaves the store as
    it was. *)
Lemma get_current_user_run name w :
  get_current_user (Some name) w =
  let w' := World (db w) None (stripe w)
              (trace w ++ [DbConnect; DbExecute (SelectUserByUsername name); DbCommit]) in
  match select_user (db w) name with
  | Some u => (inr u, w')
  | None => (inl (HTTPException 401 (Detail "Not authenticated")), w')
  end.
Proof.
  unfold get_current_user, with_connection, get_user, execute, fetchone_user,
    mbind, M_bind, log, raise. simpl.
  destruct (select_user (db w) name); simpl; by rewrite <- !app_assoc.
Qed.

Lemma update_user_customer_users d d' k u c :
  users d !! k = Some u →
  update_user_by_id (SqlInteger k) stripe_customer_id (Some c) "stripe_customer_id"
    (set_stripe_customer_id (Some c)) d = inr d' →
  users d' = <[k := set_stripe_customer_id (Some c) u]> (users d).
Proof.
  intros Hu. unfold update_user_by_id. simpl. rewrite Hu.
  destruct (unique_conflict _ _ _ _); [done|]. by intros [= <-].
Qed.

(** A request whose user row carries no customer reference and that is
    answered without error: one customer is created and written to the row
    by the UPDATE keyed on the user id. *)
Lemma checkout_creates_customer request current_user w resp w' :
  truthy (stripe_customer_id (cu_row current_user)) = false →
  users (db w) !! cu_id current_user = Some (cu_row current_user) →
  (∀ s e n c s', Customer_create s e n = (inr c, s') → customer_id c ≠ EmptyString) →
  create_checkout_session_api request current_user w = (inr resp, w') →
  ∃ c new,
    c ≠ EmptyString
    ∧ trace w' = (trace w ++ new)%list
    ∧ customers_created new = 1%nat
    ∧ users (db w')
      = <[cu_id current_user := set_stripe_customer_id (Some c) (cu_row current_user)]>
          (users (db w))
    ∧ (∀ x, x ∈ session_customers new → x = c)
    ∧ (∀ q, DbExecute q ∈ new →
         q = UpdateUserCustomer c (SqlInteger (cu_id current_user))).
Proof.
  intros Hnone Hrow Hids. unfold_checkout. rewrite Hnone.
  repeat step_run; intros Hrun; simplify_eq; rewrite <- ?app_assoc; simpl;
    (eexists _, _; split; [by eapply Hids|]; split; [reflexivity|];
     split; [done|]; split; [by eapply update_user_customer_users|];
     unfold session_customers; simpl;
     split; [intros x Hx | intros q Hq]; [in_trace Hx | in_trace Hq]; done).
Qed.

(** A request whose user row carries a customer reference creates no
    customer, writes nothing, and opens its session for that customer. *)
Lemma checkout_reuses_customer request current_user w :
  truthy (stripe_customer_id (cu_row current_user)) = true →
  let r := create_checkout_session_api request current_user w in
  ∃ new,
    trace r.2 = (trace w ++ new)%list
    ∧ customers_created new = 0%nat
    ∧ db r.2 = db w
    ∧ (∀ x, x ∈ session_customers new →
         x = str_of (stripe_customer_id (cu_row current_user)))
    ∧ (∀ q, DbExecute q ∉ new).
Proof.
  intros Hsome r. subst r. unfold_checkout. rewrite Hsome.
  repeat step_run; rewrite <- ?app_assoc; simpl;
    first [ eexists; split; [reflexivity|]
          | exists []; split; [by rewrite app_nil_r|] ];
    (split; [done|]; split; [done|]; unfold session_customers; simpl;
     split; [intros x Hx | intros q Hq]; [in_trace Hx | in_trace Hq]; done).
Qed.

Lemma set_stripe_customer_id_username c u :
  username (set_stripe_customer_id c u) = username u.
Proof. by destruct u. Qed.

(** C9, as the code has it: when two checkout initiations of a user without
    customer reference are served one after the other and the first is
    answered without error, exactly one customer is created; it is written to
    the user's row by the UPDATE keyed on the user id, and the second request
    reads it and opens its session for it. *)
Theorem sequential_checkouts_share_customer name r1 r2 w k u :
  unique_usernames (users (db w)) →
  users (db w) !! k = Some u →
  username u = name →
  truthy (stripe_customer_id u) = false →
  (∀ s e n c s', Customer_create s e n = (inr c, s') → customer_id c ≠ EmptyString) →
  let r := two_checkouts_in_sequence (Some name) r1 r2 w in
  (∃ resp, r.1.1 = inr resp) →
  ∃ c new,
    trace r.2 = (trace w ++ new)%list
    ∧ customers_created new = 1%nat
    ∧ users (db r.2) !! k = Some (set_stripe_customer_id (Some c) u)
    ∧ (∀ x, x ∈ session_customers new → x = c)
    ∧ (∀ q, DbExecute q ∈ new →
         q = SelectUserByUsername name ∨ q = UpdateUserCustomer c (SqlInteger k)).
Proof.
  intros Huniq Hu Hname Hnone Hids r. subst r. unfold two_checkouts_in_sequence.
  rewrite get_current_user_run. cbv zeta.
  rewrite (select_user_unique _ _ _ _ Huniq Hu Hname). simpl serve.
  destruct (create_checkout_session_api r1 _ _) as [[e|resp] w2] eqn:Hrun1.
  { destruct (get_current_user _ w2) as [u2 w3].
    destruct (serve u2 r2 w3) as [b w4]. simpl. by intros [? [=]]. }
  apply checkout_creates_customer in Hrun1
    as (c & new1 & Hc & Htrace1 & Hcount1 & Husers & Hsessions1 & Hsql1);
    [|done..].
  simpl in Husers, Htrace1, Hsql1.
  assert (users (db w2) !! k = Some (set_stripe_customer_id (Some c) u)) as Hu2.
  { rewrite Husers. apply lookup_insert_eq. }
  assert (unique_usernames (users (db w2))) as Huniq2.
  { rewrite Husers.
    eapply unique_usernames_insert; eauto using set_stripe_customer_id_username. }
  rewrite get_current_user_run. cbv zeta.
  rewrite (select_user_unique _ name _ _ Huniq2 Hu2)
    by (by rewrite set_stripe_customer_id_username).
  simpl serve.
  match goal with
  | |- context [create_checkout_session_api r2 ?cu ?w3] =>
      destruct (checkout_reuses_customer r2 cu w3)
        as (new2 & Htrace2 & Hcount2 & Hdb2 & Hsessions2 & Hsql2);
      [ destruct u; simpl; by apply bool_decide_eq_true_2 |];
      destruct (create_checkout_session_api r2 cu w3) as [b w4]
  end.
  simpl in *. intros _.
  exists c, ([DbConnect; DbExecute (SelectUserByUsername name); DbCommit] ++ new1
             ++ [DbConnect; DbExecute (SelectUserByUsername name); DbCommit] ++ new2)%list.
  split; [|split; [|split; [|split]]].
  - rewrite Htrace2, Htrace1. by rewrite <- !app_assoc.
  - rewrite !customers_created_app, Hcount1, Hcount2. done.
  - by rewrite Hdb2.
  - intros x. rewrite !session_customers_app, !elem_of_app.
    unfold session_customers at 1 3. simpl.
    intros [Hx|[Hx|[Hx|Hx]]]; [by apply elem_of_nil in Hx | by apply Hsessions1
                               | by apply elem_of_nil in Hx |].
    apply Hsessions2 in Hx. by destruct u.
  - intros q. rewrite !elem_of_app.
    intros [Hq|[Hq|[Hq|Hq]]]; [in_trace Hq; by left | right; by apply Hsql1
                               | in_trace Hq; by left | by apply Hsql2 in Hq].
Qed.

End Reconciliation.

(** * Further properties of the payment core *)

Section Coverage.
Context {St : Type} `{!Deployment} `{!Processor St}.
Implicit Types (w : world St) (d : store) (q : sql).

(** Case analysis on the next outcome a handler branches on. *)
Ltac case_step :=
  match goal with
  | |- context [match ?x with _ => _ end] =>
      lazymatch x with
      | context [match _ with _ => _ end] => fail
      | _ => destruct x eqn:?
      end
  | |- context [if ?x then _ else _] =>
      lazymatch x with
      | context [match _ with _ => _ end] => fail
      | context [if _ then _ else _] => fail
      | _ => destruct x eqn:?
      end
  end; simpl in *.

Ltac unfold_webhook :=
  unfold stripe_webhook_api, handle_checkout_session_completed, handle_invoice_paid,
    attr_data, evaluate, try_except, mbind, M_bind, raise, index0,
    stripe_Webhook_construct_event,
    stripe_Subscription_retrieve, with_connection, execute, commit, cursor_commit,
    mret, M_ret, log; simpl.

Ltac unfold_initiator :=
  unfold create_checkout_session_api, try_except, mbind, M_bind, await, raise, index0,
    stripe_Price_retrieve, stripe_Customer_create, stripe_checkout_Session_create,
    with_connection, execute, commit, mret, M_ret, log; simpl.

Ltac in_list H :=
  repeat match type of H with
         | _ ∈ _ :: _ => apply elem_of_cons in H as [H|H]
         | _ ∈ [] => by apply elem_of_nil in H
         end;
  simplify_eq.

(** *** Events the webhook has nothing to do for *)

(** An authentic event of a kind other than completed-checkout and
    invoice-paid is acknowledged with success; the world is unchanged. *)
Theorem webhook_ignores_other_events request w ev :
  Webhook_construct_event (stripe w) (body request)
    (headers request !! "stripe-signature") (STRIPE_WEBHOOK_SECRET environ) = inr ev →
  ev_type ev ≠ "checkout.session.completed" →
  ev_type ev ≠ "invoice.payment_succeeded" →
  stripe_webhook_api request w = (inr (JSONResponse [("status", "success")] 200), w).
Proof.
  intros Hverify Hcheckout Hinvoice.
  unfold stripe_webhook_api, mbind, M_bind, try_except, stripe_Webhook_construct_event.
  rewrite Hverify. by rewrite !bool_decide_eq_false_2.
Qed.

(** An authentic completed-checkout event that carries no user id, in either
    mode: when its metadata is absent, or is a dict without a user id or with
    an empty one, it is acknowledged with success; when its metadata is
    [null], the handler fails on it and the request is answered with a server
    error. In both cases the processor is not asked and the world is
    unchanged. *)
Theorem checkout_without_user_id_is_acknowledged request w ev :
  Webhook_construct_event (stripe w) (body request)
    (headers request !! "stripe-signature") (STRIPE_WEBHOOK_SECRET environ) = inr ev →
  ev_type ev = "checkout.session.completed" →
  carries_user_id (ev_object ev) = false →
  let r := stripe_webhook_api request w in
  r.2 = w
  ∧ match so_metadata (ev_object ev) with
    | Null => r.1 = inl (AttributeError "'NoneType' object has no attribute 'get'")
              ∧ http_status r.1 = 500
    | Missing | Present _ => r.1 = inr (JSONResponse [("status", "success")] 200)
    end.
Proof.
  intros Hverify Htype Huid r. subst r.
  unfold stripe_webhook_api, mbind, M_bind, try_except, stripe_Webhook_construct_event.
  rewrite Hverify, Htype. rewrite bool_decide_eq_true_2 by done.
  rewrite (handle_checkout_without_user_id _ _ Huid).
  unfold session_user_id. by destruct (so_metadata (ev_object ev)).
Qed.

(** *** What the webhook never writes *)

Lemma update_user_by_id_rows (R : user → user → Prop) id column v name f d d' :
  (∀ u, R u u) → (∀ u, R u (f u)) →
  update_user_by_id id column v name f d = inr d' →
  same_rows R (users d) (users d') ∧ orders d' = orders d.
Proof.
  intros Hrefl Hf. unfold update_user_by_id.
  assert (same_rows R (users d) (users d)) as Hsame.
  { intros k. destruct (users d !! k); by constructor. }
  destruct (rowid_of id) as [k|]; [|by intros [= <-]].
  destruct (users d !! k) as [u|] eqn:Hu; [|by intros [= <-]].
  destruct (unique_conflict _ _ _ _); [done|]. intros [= <-]. simpl.
  split; [|done]. intros k'. destruct (decide (k = k')) as [<-|Hne].
  - rewrite Hu, lookup_insert_eq. by constructor.
  - rewrite lookup_insert_ne by done. apply Hsame.
Qed.

Lemma same_rows_refl {A} (R : A → A → Prop) (t : gmap Z A) :
  (∀ x, R x x) → same_rows R t t.
Proof. intros Hrefl k. destruct (t !! k); by constructor. Qed.

Lemma webhook_keeps_user_refl u : webhook_keeps_user u u.
Proof. by repeat split. Qed.

Lemma webhook_keeps_order_refl o : webhook_keeps_order o o.
Proof. by repeat split. Qed.

Lemma same_rows_completed sid (os : gmap Z order) :
  same_rows webhook_keeps_order os
    ((λ o, if bool_decide (stripe_session_id o = Some sid)
           then set_status (Some "completed") o else o) <$> os).
Proof.
  intros k. rewrite lookup_fmap. destruct (os !! k) as [o|]; constructor.
  case_bool_decide; [destruct o|]; by repeat split.
Qed.

(** Whatever the request, the webhook creates and deletes no user and no
    order; of a user it can change the plan, the subscription status and the
    subscription reference only, of an order the status only. *)
Theorem webhook_writes_subscription_and_status_only request w :
  let w' := (stripe_webhook_api request w).2 in
  same_rows webhook_keeps_user (users (db w)) (users (db w'))
  ∧ same_rows webhook_keeps_order (orders (db w)) (orders (db w')).
Proof.
  intros w'. subst w'. unfold_webhook.
  repeat case_step;
    try (split; [by apply same_rows_refl, webhook_keeps_user_refl
                | by apply same_rows_refl, webhook_keeps_order_refl]).
  split; [by apply same_rows_refl, webhook_keeps_user_refl | apply same_rows_completed].
Qed.

(** *** Duplicate deliveries *)

Lemma completed_idemp sid (os : gmap Z order) :
  let f := λ o, if bool_decide (stripe_session_id o = Some sid)
                then set_status (Some "completed") o else o in
  f <$> (f <$> os) = f <$> os.
Proof.
  intros f. rewrite <- map_fmap_compose. apply map_fmap_ext. intros k o _.
  unfold f, compose.
  destruct (bool_decide (stripe_session_id o = Some sid)) eqn:Hsid; [|by rewrite Hsid].
  destruct o. simpl in *. by rewrite Hsid.
Qed.

(** Case analysis for a second run: an outcome met before is reused. *)
Ltac case_again :=
  match goal with
  | Hseen : ?x = _ |- context [match ?x with _ => _ end] => rewrite Hseen
  | Hseen : ?x = _ |- context [if ?x then _ else _] => rewrite Hseen
  | _ => case_step
  end; simpl in *.

(** Delivering any webhook request a second time leaves the store as the
    first delivery left it, whatever the kind of the event and whether or not
    the first delivery was answered with success. *)
Theorem webhook_delivery_idempotent request w :
  let once := (stripe_webhook_api request w).2 in
  db (stripe_webhook_api request once).2 = db once.
Proof.
  intros once. subst once. unfold_webhook.
  repeat case_again; try done.
  by rewrite completed_idemp.
Qed.

(** *** The UNIQUE columns *)

Lemma unique_column_update column v k u u' (us : gmap Z user) :
  unique_column column us →
  us !! k = Some u →
  unique_conflict column v k us = false →
  column u' = v →
  unique_column column (<[k := u']> us).
Proof.
  unfold unique_conflict. rewrite bool_decide_eq_false.
  intros Huniq Hu Hfree Hcol k1 k2 u1 u2 x H1 H2 Hx1 Hx2.
  apply lookup_insert_Some in H1 as [[<- <-]|[Hk1 H1]];
    apply lookup_insert_Some in H2 as [[<- <-]|[Hk2 H2]]; try done.
  - destruct Hfree. exists k2, u2. repeat split; [done..|congruence|congruence].
  - destruct Hfree. exists k1, u1. repeat split; [done..|congruence|congruence].
  - by eapply Huniq.
Qed.

Lemma unique_column_other column u' k u (us : gmap Z user) :
  unique_column column us →
  us !! k = Some u →
  column u' = column u →
  unique_column column (<[k := u']> us).
Proof.
  intros Huniq Hu Hcol k1 k2 u1 u2 x H1 H2 Hx1 Hx2.
  apply lookup_insert_Some in H1 as [[<- <-]|[Hk1 H1]];
    apply lookup_insert_Some in H2 as [[<- <-]|[Hk2 H2]]; try done.
  - eapply Huniq; eauto. congruence.
  - eapply Huniq; eauto. congruence.
  - by eapply Huniq.
Qed.

Lemma update_user_by_id_unique column' id column v name f d d' :
  (column' = column ∧ (∀ u, column (f u) = v)) ∨ (∀ u, column' (f u) = column' u) →
  unique_column column' (users d) →
  update_user_by_id id column v name f d = inr d' →
  unique_column column' (users d').
Proof.
  intros Hcase Huniq. unfold update_user_by_id.
  destruct (rowid_of id) as [k|]; [|by intros [= <-]].
  destruct (users d !! k) as [u|] eqn:Hu; [|by intros [= <-]].
  destruct (unique_conflict _ _ _ _) eqn:Hfree; [done|]. intros [= <-]. simpl.
  destruct Hcase as [[-> Hcol]|Hcol].
  - by eapply unique_column_update.
  - by eapply unique_column_other.
Qed.

(** The webhook keeps the UNIQUE constraints of [users]: if no two users
    share a subscription reference, or a customer reference, before a
    delivery, none do after it. *)
Theorem webhook_keeps_unique_references request w :
  let w' := (stripe_webhook_api request w).2 in
  (unique_column subscription_id (users (db w)) →
   unique_column subscription_id (users (db w')))
  ∧ (unique_column stripe_customer_id (users (db w)) →
     unique_column stripe_customer_id (users (db w'))).
Proof.
  intros w'. subst w'. unfold_webhook.
  repeat case_step; done.
Qed.

(** The checkout initiator keeps them too. *)
Lemma checkout_keeps_unique_references request current_user w :
  let w' := (create_checkout_session_api request current_user w).2 in
  (unique_column stripe_customer_id (users (db w)) →
   unique_column stripe_customer_id (users (db w')))
  ∧ (unique_column subscription_id (users (db w)) →
     unique_column subscription_id (users (db w'))).
Proof.
  intros w'. subst w'. unfold_initiator.
  repeat case_step; try done;
    (split; intros Huniq;
     (eapply update_user_by_id_unique; [|done|done]);
     [left | right]; (split || idtac); try done; by intros []).
Qed.

(** *** The answers of the checkout initiator *)

(** Whatever the request and whatever the processor does, the initiator
    answers 200 (a session id), 303 (a redirect to the session), or 500:
    every exception, its own 400 for an empty cart included, is answered as
    500. *)
Theorem checkout_answers_200_303_or_500 request current_user w :
  http_status (create_checkout_session_api request current_user w).1 ∈ [200; 303; 500].
Proof.
  unfold_initiator. repeat case_step; set_solver.
Qed.

(** *** What the checkout initiator writes *)

Lemma checkout_keeps_user_refl u : checkout_keeps_user u u.
Proof. by repeat split. Qed.

Lemma checkout_keeps_user_customer c u :
  checkout_keeps_user u (set_stripe_customer_id c u).
Proof. destruct u. by repeat split. Qed.

Lemma update_user_by_id_others k column v name f d d' :
  update_user_by_id (SqlInteger k) column v name f d = inr d' →
  ∀ k', k' ≠ k → users d' !! k' = users d !! k'.
Proof.
  unfold update_user_by_id. simpl.
  destruct (users d !! k) as [u|]; [|by intros [= <-]].
  destruct (unique_conflict _ _ _ _); [done|]. intros [= <-] k' Hne. simpl.
  by rewrite lookup_insert_ne.
Qed.

(** Whatever the request, the checkout initiator writes no order and creates
    and deletes no user; the only column it can change is the customer
    reference of the row with the authenticated user's id, and when that user
    already carries a customer reference it writes nothing at all. *)
Theorem checkout_writes_customer_reference_only request current_user w :
  let w' := (create_checkout_session_api request current_user w).2 in
  orders (db w') = orders (db w)
  ∧ same_rows checkout_keeps_user (users (db w)) (users (db w'))
  ∧ (∀ k, k ≠ cu_id current_user → users (db w') !! k = users (db w) !! k)
  ∧ (truthy (stripe_customer_id (cu_row current_user)) = true → db w' = db w).
Proof.
  intros w'. subst w'. unfold_initiator.
  repeat case_step;
    try (split; [done|]; split; [by apply same_rows_refl, checkout_keeps_user_refl|];
         split; done);
    match goal with
    | Hupd : update_user_by_id _ _ _ _ _ _ = inr _ |- _ =>
        pose proof (update_user_by_id_others _ _ _ _ _ _ _ Hupd) as Hothers;
        apply (update_user_by_id_rows checkout_keeps_user) in Hupd as [Hrows Horders];
        [| apply checkout_keeps_user_refl | apply checkout_keeps_user_customer]
    end; done.
Qed.

(** When the session cannot be opened after a customer has been created for
    the user, the request is answered 500 and the customer reference stays
    in the user's row. *)
Theorem failed_session_keeps_customer_reference
    request current_user w first rest info c s1 e s2 :
  request_line_items request = inr (Some (first :: rest)) →
  Price_retrieve (stripe w) (price first) = inr info →
  truthy (stripe_customer_id (cu_row current_user)) = false →
  users (db w) !! cu_id current_user = Some (cu_row current_user) →
  Customer_create (stripe w) (email (cu_row current_user))
    (full_name (cu_row current_user)) = (inr c, s1) →
  unique_conflict stripe_customer_id (Some (customer_id c)) (cu_id current_user)
    (users (db w)) = false →
  Session_create s1
    (SessionParams (customer_id c) ["card"] (first :: rest)
       (if recurring info then "subscription" else "payment")
       (base_url request +:+ "payment/success?session_id={CHECKOUT_SESSION_ID}")
       (base_url request +:+ "payment/cancel")
       [("user_id", cu_id current_user)]) = (inl e, s2) →
  let r := create_checkout_session_api request current_user w in
  r.1 = inl (HTTPException 500 (StrOf e))
  ∧ users (db r.2)
    = <[cu_id current_user := set_stripe_customer_id (Some (customer_id c))
                                (cu_row current_user)]> (users (db w)).
Proof.
  intros Hitems Hprice Hnone Hrow Hcustomer Hfree Hsession r. subst r.
  unfold_initiator. rewrite Hitems. simpl. rewrite Hprice. simpl.
  rewrite Hnone. simpl. rewrite Hcustomer. simpl.
  unfold update_user_by_id. simpl. rewrite Hrow, Hfree. simpl.
  by rewrite Hsession.
Qed.

(** A request opens at most one checkout session, retrieves at most one
    price and creates at most one customer; the session it opens carries the
    line items of the request (a non-empty list), the card payment method,
    the authenticated user's id as its metadata, and the return addresses
    under the request's base URL. *)
Theorem checkout_session_carries_cart_and_user request current_user w :
  let r := create_checkout_session_api request current_user w in
  ∃ new, trace r.2 = (trace w ++ new)%list
    ∧ (length (session_modes new) ≤ 1)%nat
    ∧ (customers_created new ≤ 1)%nat
    ∧ (∀ p, StripeCall (SessionCreate p) ∈ new →
         request_line_items request = inr (Some (sp_line_items p))
         ∧ sp_line_items p ≠ []
         ∧ sp_payment_method_types p = ["card"]
         ∧ sp_metadata p = [("user_id", cu_id current_user)]
         ∧ sp_success_url p
           = base_url request +:+ "payment/success?session_id={CHECKOUT_SESSION_ID}"
         ∧ sp_cancel_url p = base_url request +:+ "payment/cancel").
Proof.
  intros r. subst r. unfold_initiator.
  repeat case_step; rewrite <- ?app_assoc; simpl;
    first [ eexists; split; [reflexivity|]
          | exists []; split; [by rewrite app_nil_r|] ];
    unfold session_modes, customers_created; simpl;
    (split; [lia|]; split; [lia|]); intros params Hp; in_list Hp;
    match goal with
    | Hitems : default [] ?o = _ :: _ |- _ => destruct o; simplify_eq/=
    end; done.
Qed.

End Coverage.

(** * Further properties of the entitlement check *)

Lemma plan_or_unrecognized (s : string) : (∃ p, s = plan_name p) ∨ unrecognized s.
Proof.
  destruct (decide (s = "none")) as [->|?]; [left; by exists PlanNone|].
  destruct (decide (s = "basic")) as [->|?]; [left; by exists PlanBasic|].
  destruct (decide (s = "premium")) as [->|?]; [left; by exists PlanPremium|].
  destruct (decide (s = "ultimate")) as [->|?]; [left; by exists PlanUltimate|].
  right. by intros [].
Qed.

Lemma has_access_plans (p q : plan) :
  user_has_access (plan_name p) (plan_name q) = (rank q <=? rank p)%Z.
Proof. by destruct p, q. Qed.

Lemma has_access_unrecognized_required (u r : string) :
  unrecognized r → user_has_access u r = false.
Proof.
  intros Hr. unfold user_has_access. pose proof (level_bounds u) as Hu.
  unfold dict_get at 2. rewrite (PLAN_HIERARCHY_unrecognized r Hr). simpl.
  rewrite Z.geb_leb. apply Z.leb_gt. lia.
Qed.

Lemma has_access_unrecognized_user (u : string) (q : plan) :
  unrecognized u → user_has_access u (plan_name q) = (rank q <=? 0)%Z.
Proof.
  intros Hu. unfold user_has_access. unfold dict_get at 1.
  rewrite (PLAN_HIERARCHY_unrecognized u Hu). by destruct q.
Qed.

(** Whoever has access, the required plan is one of the four tiers. *)
Lemma has_access_required_plan (u r : string) :
  user_has_access u r = true → ∃ q, r = plan_name q.
Proof.
  intros Hur. destruct (plan_or_unrecognized r) as [?|Hr]; [done|].
  by rewrite (has_access_unrecognized_required u r Hr) in Hur.
Qed.

(** On all strings [user_has_access] is transitive and antisymmetric; it
    holds of a string and itself exactly for the four tier names, and two
    tier names are always comparable: it is a total order on the tiers, and
    nothing else is related to itself. *)
Theorem user_has_access_total_order :
  (∀ a b c : string, user_has_access a b = true → user_has_access b c = true →
                     user_has_access a c = true)
  ∧ (∀ a b : string, user_has_access a b = true → user_has_access b a = true → a = b)
  ∧ (∀ s : string, user_has_access s s = true ↔ ∃ p, s = plan_name p)
  ∧ (∀ p q : plan, user_has_access (plan_name p) (plan_name q) = true
                   ∨ user_has_access (plan_name q) (plan_name p) = true).
Proof.
  split; [|split; [|split]].
  - intros a b c Hab Hbc.
    destruct (has_access_required_plan _ _ Hab) as [q ->].
    destruct (has_access_required_plan _ _ Hbc) as [r ->].
    rewrite has_access_plans in Hbc. apply Z.leb_le in Hbc.
    destruct (plan_or_unrecognized a) as [[p ->]|Ha].
    + rewrite has_access_plans in Hab |- *. apply Z.leb_le in Hab. apply Z.leb_le. lia.
    + rewrite (has_access_unrecognized_user a q Ha) in Hab.
      rewrite (has_access_unrecognized_user a r Ha).
      apply Z.leb_le in Hab. apply Z.leb_le. lia.
  - intros a b Hab Hba.
    destruct (has_access_required_plan _ _ Hab) as [q ->].
    destruct (has_access_required_plan _ _ Hba) as [p ->].
    rewrite has_access_plans in Hab, Hba. by destruct p, q.
  - intros s. split.
    + apply has_access_required_plan.
    + intros [p ->]. rewrite has_access_plans. apply Z.leb_refl.
  - intros p q. rewrite !has_access_plans. by destruct p, q; auto.
Qed.

(** * Slugs *)

Section SlugProperties.
Import Stdlib.Strings.Ascii.

(** All 256 characters, one by one. *)
Ltac each_char c := destruct c as [[] [] [] [] [] [] [] []]; vm_compute; try done.

Lemma hyphen_is_separator c : separator c = false → c ≠ "-"%char.
Proof. intros Hc ->. by vm_compute in Hc. Qed.

Lemma lower_char_separator c : separator (lower_char c) = separator c.
Proof. each_char c. Qed.

Lemma lower_char_slug c : separator c = false → slug_char (lower_char c) = true.
Proof. each_char c. Qed.

Lemma slug_char_lower c : slug_char c = true → lower_char c = c.
Proof. each_char c. Qed.

Lemma slug_char_separator c :
  slug_char c = true → separator c = bool_decide (c = "-"%char).
Proof. each_char c. Qed.

Lemma slug_char_hyphen : slug_char "-" = true.
Proof. done. Qed.

(** [sub_runs] after [lower]: slug characters only, no two hyphens in a row,
    and no hyphen first when the run is already open. *)
Lemma sub_runs_chars b text : all_chars slug_char (sub_runs b (lower text)) = true.
Proof.
  revert b. induction text as [|c rest IH]; intros b; simpl; [done|].
  rewrite lower_char_separator. destruct (separator c) eqn:Hc.
  - destruct b; simpl; by rewrite ?IH.
  - simpl. by rewrite lower_char_slug, IH.
Qed.

Lemma sub_runs_hyphens b text :
  has_double_hyphen (sub_runs b text) = false
  ∧ (b = true → starts_with_hyphen (sub_runs b text) = false).
Proof.
  revert b. induction text as [|c rest IH]; intros b; simpl; [done|].
  destruct (separator c) eqn:Hc.
  - destruct b; simpl.
    + apply IH.
    + destruct (IH true) as [Hdouble Hstart]. rewrite Hdouble, Hstart by done.
      split; [done|]. by intros [=].
  - simpl. destruct (IH false) as [-> _].
    apply hyphen_is_separator in Hc. rewrite bool_decide_eq_false_2 by done.
    split; [done|]. by intros _.
Qed.

Lemma lstrip_chars P text : all_chars P text = true → all_chars P (lstrip text) = true.
Proof.
  induction text as [|c rest IH]; simpl; [done|]. intros [Hc Hrest]%andb_true_iff.
  case_bool_decide; [by apply IH|]. simpl. by rewrite Hc, Hrest.
Qed.

Lemma lstrip_hyphens text :
  has_double_hyphen text = false →
  has_double_hyphen (lstrip text) = false ∧ starts_with_hyphen (lstrip text) = false.
Proof.
  induction text as [|c rest IH]; simpl; [done|]. intros [Hc Hrest]%orb_false_iff.
  case_bool_decide as Hhyphen; [by apply IH|]. simpl.
  rewrite Hrest. by rewrite !bool_decide_eq_false_2.
Qed.

Lemma rstrip_chars P text : all_chars P text = true → all_chars P (rstrip text) = true.
Proof.
  induction text as [|c rest IH]; simpl; [done|]. intros [Hc Hrest]%andb_true_iff.
  specialize (IH Hrest). destruct (rstrip rest) as [|c' kept].
  - case_bool_decide; simpl; [done|]. by rewrite Hc.
  - simpl in *. by rewrite Hc, IH.
Qed.

Lemma rstrip_starts text :
  starts_with_hyphen text = false → starts_with_hyphen (rstrip text) = false.
Proof.
  destruct text as [|c rest]; simpl; [done|]. intros Hc.
  destruct (rstrip rest); [|done]. by rewrite Hc.
Qed.

Lemma rstrip_starts_le text :
  starts_with_hyphen (rstrip text) = true → starts_with_hyphen text = true.
Proof.
  destruct (starts_with_hyphen text) eqn:Hs; [done|]. by rewrite rstrip_starts.
Qed.

Lemma rstrip_hyphens text :
  has_double_hyphen text = false →
  has_double_hyphen (rstrip text) = false ∧ ends_with_hyphen (rstrip text) = false.
Proof.
  induction text as [|c rest IH]; simpl; [done|]. intros [Hc Hrest]%orb_false_iff.
  destruct (IH Hrest) as [Hdouble Hend].
  destruct (rstrip rest) as [|c' kept] eqn:Hkept.
  - case_bool_decide as Hhyphen; simpl; [done|]. by rewrite bool_decide_eq_false_2.
  - simpl in *. rewrite Hdouble, Hend. split; [|by destruct kept].
    rewrite orb_false_r. apply andb_false_iff in Hc as [Hc|Hc]; [by rewrite Hc|].
    destruct (bool_decide (c' = "-"%char)) eqn:Hc'; [|by rewrite andb_false_r].
    assert (starts_with_hyphen rest = true) as Hs; [|by rewrite Hs in Hc].
    apply rstrip_starts_le. by rewrite Hkept.
Qed.

Lemma slugify_clean text : clean_slug (slugify text) = true.
Proof.
  unfold slugify, strip, clean_slug.
  pose proof (sub_runs_chars false text) as Hchars.
  destruct (sub_runs_hyphens false (lower text)) as [Hdouble _].
  destruct (lstrip_hyphens _ Hdouble) as [Hdouble' Hstart].
  destruct (rstrip_hyphens _ Hdouble') as [Hdouble'' Hend].
  rewrite (rstrip_chars _ _ (lstrip_chars _ _ Hchars)).
  by rewrite (rstrip_starts _ Hstart), Hend, Hdouble''.
Qed.

(** [slugify] leaves a slug in normal form as it is. *)
Lemma lower_slug text : all_chars slug_char text = true → lower text = text.
Proof.
  induction text as [|c rest IH]; simpl; [done|]. intros [Hc Hrest]%andb_true_iff.
  by rewrite slug_char_lower, IH.
Qed.

Lemma sub_runs_slug b text :
  all_chars slug_char text = true →
  has_double_hyphen text = false →
  (b = true → starts_with_hyphen text = false) →
  sub_runs b text = text.
Proof.
  revert b. induction text as [|c rest IH]; intros b; simpl; [done|].
  intros [Hc Hrest]%andb_true_iff [Hcc Hdouble]%orb_false_iff Hstart.
  rewrite (slug_char_separator c Hc).
  destruct (bool_decide (c = "-"%char)) eqn:Hhyphen.
  - destruct b; [by specialize (Hstart eq_refl)|].
    apply bool_decide_eq_true in Hhyphen as ->. f_equal. by apply IH.
  - f_equal. by apply IH.
Qed.

Lemma lstrip_id text : starts_with_hyphen text = false → lstrip text = text.
Proof. destruct text as [|c rest]; simpl; [done|]. by intros ->. Qed.

Lemma rstrip_id text : ends_with_hyphen text = false → rstrip text = text.
Proof.
  induction text as [|c rest IH]; simpl; [done|]. destruct rest as [|c' rest'].
  - simpl. by intros ->.
  - intros Hend. by rewrite (IH Hend).
Qed.

Lemma slugify_of_clean text : clean_slug text = true → slugify text = text.
Proof.
  unfold clean_slug. rewrite !andb_true_iff, !negb_true_iff.
  intros [[[Hchars Hstart] Hend] Hdouble]. unfold slugify, strip.
  rewrite (lower_slug _ Hchars), (sub_runs_slug false _ Hchars Hdouble) by done.
  by rewrite (lstrip_id _ Hstart), (rstrip_id _ Hend).
Qed.

(** For ASCII text, a slug is made of a-z, 0-9, underscores and hyphens, has
    no hyphen at either end and no two hyphens in a row; slugifying a slug
    gives it back; and the texts [slugify] leaves unchanged are exactly the
    slugs of that form. *)
Theorem slugify_normal_form (text : string) :
  isascii text = true →
  clean_slug (slugify text) = true
  ∧ slugify (slugify text) = slugify text
  ∧ (slugify text = text ↔ clean_slug text = true).
Proof.
  intros _. split; [apply slugify_clean|]. split.
  - apply slugify_of_clean, slugify_clean.
  - split; [intros <-; apply slugify_clean | apply slugify_of_clean].
Qed.

(** *** The empty slug *)

Lemma sub_runs_all_hyphens b text :
  all_chars (λ c, bool_decide (c = "-"%char)) (sub_runs b text)
  = all_chars separator text.
Proof.
  revert b. induction text as [|c rest IH]; intros b; simpl; [done|].
  destruct (separator c) eqn:Hc.
  - destruct b; simpl; apply IH.
  - simpl. apply hyphen_is_separator in Hc. by rewrite bool_decide_eq_false_2.
Qed.

Lemma all_chars_lower_separator text :
  all_chars separator (lower text) = all_chars separator text.
Proof.
  induction text as [|c rest IH]; simpl; [done|]. by rewrite lower_char_separator, IH.
Qed.

Lemma lstrip_empty text :
  lstrip text = EmptyString ↔ all_chars (λ c, bool_decide (c = "-"%char)) text = true.
Proof.
  induction text as [|c rest IH]; simpl; [done|].
  destruct (bool_decide (c = "-"%char)); simpl; [done|]. split; by intros [=].
Qed.

Lemma rstrip_empty text :
  rstrip text = EmptyString → all_chars (λ c, bool_decide (c = "-"%char)) text = true.
Proof.
  induction text as [|c rest IH]; simpl; [done|].
  destruct (rstrip rest) as [|c' kept]; [|done].
  destruct (bool_decide (c = "-"%char)); [|done]. intros _. by apply IH.
Qed.

Lemma lstrip_starts text : starts_with_hyphen (lstrip text) = false.
Proof.
  induction text as [|c rest IH]; simpl; [done|].
  destruct (bool_decide (c = "-"%char)) eqn:Hc; [done|]. simpl. by rewrite Hc.
Qed.

Lemma strip_empty text :
  strip text = EmptyString ↔ all_chars (λ c, bool_decide (c = "-"%char)) text = true.
Proof.
  unfold strip. split.
  - intros Hempty. apply lstrip_empty. apply rstrip_empty in Hempty.
    pose proof (lstrip_starts text) as Hstart.
    destruct (lstrip text) as [|c rest]; [done|]. simpl in *.
    by rewrite Hstart in Hempty.
  - intros Hall. apply lstrip_empty in Hall. by rewrite Hall.
Qed.

(** For ASCII text, the slug is empty exactly when the text has no letter,
    no digit and no underscore (the empty text, or separators only). *)
Theorem slugify_empty (text : string) :
  isascii text = true →
  slugify text = EmptyString ↔ all_chars separator text = true.
Proof.
  intros _. unfold slugify.
  by rewrite strip_empty, sub_runs_all_hyphens, all_chars_lower_separator.
Qed.

End SlugProperties.

(** * Accounts *)

Section AccountProperties.
Context {St : Type} `{!Deployment} `{!Auth.Libraries}.
Implicit Types (w : world St) (d : store).

(** *** The token in the cookie *)

Lemma str_in_space c rest :
  str_in " " (String c rest) = bool_decide (c = Ascii.Space) || str_in " " rest.
Proof.
  destruct c as [[] [] [] [] [] [] [] []]; by destruct rest.
Qed.

Lemma split_space_cons text : ∃ part parts, Auth.split_space text = part :: parts.
Proof.
  induction text as [|c rest (part & parts & IH)]; simpl; [by eexists _, _|].
  case_bool_decide; [by eexists _, _|]. rewrite IH. by eexists _, _.
Qed.

Lemma split_space_no_space text :
  str_in " " text = false → Auth.split_space text = [text].
Proof.
  induction text as [|c rest IH]; [done|]. rewrite str_in_space.
  intros [Hc Hrest]%orb_false_iff. simpl. rewrite Hc. by rewrite (IH Hrest).
Qed.

Lemma split_space_two text :
  str_in " " text = true → ∃ first second parts,
    Auth.split_space text = first :: second :: parts.
Proof.
  induction text as [|c rest IH]; [done|]. rewrite str_in_space. simpl.
  destruct (bool_decide (c = Ascii.Space)); simpl.
  - intros _. destruct (split_space_cons rest) as (part & parts & ->).
    by eexists _, _, _.
  - intros Hrest. destruct (IH Hrest) as (first & second & parts & ->).
    by eexists _, _, _.
Qed.

Lemma split_space_app pre text :
  str_in " " pre = false →
  Auth.split_space (pre +:+ String Ascii.Space text) = pre :: Auth.split_space text
  ∧ str_in " " (pre +:+ String Ascii.Space text) = true.
Proof.
  induction pre as [|c rest IH].
  - intros _. split; [done|]. by destruct text.
  - rewrite str_in_space. intros [Hc Hrest]%orb_false_iff.
    destruct (IH Hrest) as [Hsplit Hin].
    change (String c rest +:+ String Ascii.Space text)
      with (String c (rest +:+ String Ascii.Space text)).
    rewrite str_in_space, Hin, orb_true_r. split; [|done].
    change (Auth.split_space (String c (rest +:+ String Ascii.Space text)))
      with (if bool_decide (c = Ascii.Space)
            then EmptyString :: Auth.split_space (rest +:+ String Ascii.Space text)
            else match Auth.split_space (rest +:+ String Ascii.Space text) with
                 | part :: parts => String c part :: parts
                 | [] => [String c EmptyString]
                 end).
    by rewrite Hc, Hsplit.
Qed.

Lemma get_token_from_cookie_returns cookies :
  ∃ token, Auth.get_token_from_cookie cookies = inr token.
Proof.
  unfold Auth.get_token_from_cookie.
  destruct (negb _ || negb (str_in " " _)) eqn:Hnone; [by eexists|].
  apply orb_false_iff in Hnone as [_ Hspace%negb_false_iff].
  destruct (split_space_two _ Hspace) as (first & second & parts & ->). by eexists.
Qed.

Lemma get_token_from_cookie_bearer cookies token :
  cookies !! "access_token" = Some ("Bearer " +:+ token) →
  str_in " " token = false →
  Auth.get_token_from_cookie cookies = inr (Some token).
Proof.
  intros Hcookie Hspace. unfold Auth.get_token_from_cookie.
  rewrite Hcookie. change (str_of (Some ("Bearer " +:+ token))) with ("Bearer " +:+ token).
  change ("Bearer " +:+ token) with ("Bearer" +:+ String Ascii.Space token).
  destruct (split_space_app "Bearer" token eq_refl) as [-> Hin].
  rewrite Hin, (split_space_no_space _ Hspace).
  assert (truthy (Some ("Bearer" +:+ String Ascii.Space token)) = true) as ->; [|done].
  by apply bool_decide_eq_true_2.
Qed.

(** [get_token_from_cookie] never raises; it finds no token exactly when the
    cookie is absent or holds no space; and from the cookie that login sets,
    "Bearer " followed by a token without space, it gives the token back. *)
Theorem get_token_from_cookie_reads_login_cookie :
  (∀ cookies, ∃ token, Auth.get_token_from_cookie cookies = inr token)
  ∧ (∀ cookies, Auth.get_token_from_cookie cookies = inr None
                ↔ str_in " " (str_of (cookies !! "access_token")) = false)
  ∧ (∀ cookies token,
       cookies !! "access_token" = Some ("Bearer " +:+ token) →
       str_in " " token = false →
       Auth.get_token_from_cookie cookies = inr (Some token)).
Proof.
  split; [|split].
  - apply get_token_from_cookie_returns.
  - intros cookies. unfold Auth.get_token_from_cookie.
    destruct (cookies !! "access_token") as [cookie|]; [|done].
    change (str_of (Some cookie)) with cookie.
    destruct (str_in " " cookie) eqn:Hspace.
    + assert (truthy (Some cookie) = true) as ->.
      { destruct cookie; [done|]. by apply bool_decide_eq_true_2. }
      destruct (split_space_two _ Hspace) as (first & second & parts & ->). done.
    + by rewrite orb_true_r.
  - apply get_token_from_cookie_bearer.
Qed.

(** *** Authentication *)

Lemma select_user_sound d name user :
  select_user d name = Some user →
  users d !! cu_id user = Some (cu_row user) ∧ username (cu_row user) = name.
Proof.
  unfold select_user. destruct (head _) as [[k u]|] eqn:Hhead; [|done].
  intros [= <-]. simpl.
  apply head_Some_elem_of, list_elem_of_filter in Hhead as [Hname Hin].
  by apply elem_of_map_to_list in Hin.
Qed.

Lemma select_user_none d name k u :
  select_user d name = None → users d !! k = Some u → username u ≠ name.
Proof.
  unfold select_user. destruct (head _) eqn:Hhead; [done|]. intros _ Hu Hname.
  apply head_None in Hhead.
  assert ((k, u) ∈ filter (λ kv : Z * user, username kv.2 = name)
                      (map_to_list (users d))) as Hin.
  { apply list_elem_of_filter. split; [done|]. by apply elem_of_map_to_list. }
  rewrite Hhead in Hin. by apply elem_of_nil in Hin.
Qed.

Lemma with_connection_get_user name w :
  with_connection (get_user name) w =
  (inr (select_user (db w) name),
   World (db w) None (stripe w)
     (trace w ++ [DbConnect; DbExecute (SelectUserByUsername name); DbCommit])).
Proof.
  unfold with_connection, get_user, execute, fetchone_user, mbind, M_bind, log. simpl.
  by rewrite <- !app_assoc.
Qed.

(** Authentication reads only. It yields a user only for a token that
    decodes, under the secret key, to claims whose subject is the username
    of that user, and then the user is the row stored under the id it
    yields; every other outcome is the 401 "Not authenticated". *)
Theorem authentication_is_sound now token w :
  let r := Auth.get_current_user now token w in
  db r.2 = db w
  ∧ match r.1 with
    | inr user =>
        ∃ t payload,
          token = Some t
          ∧ Auth.jwt_decode now t (Auth.SECRET_KEY environ) [Auth.ALGORITHM] = Some payload
          ∧ Auth.claim_sub payload = Some (username (cu_row user))
          ∧ users (db w) !! cu_id user = Some (cu_row user)
    | inl e => e = HTTPException 401 (Detail "Not authenticated")
    end.
Proof.
  intros r. subst r. unfold Auth.get_current_user, raise.
  destruct token as [t|]; [|done].
  destruct (Auth.jwt_decode _ _ _ _) as [payload|] eqn:Hdecode; [|done].
  destruct (Auth.claim_sub payload) as [name|] eqn:Hsub; [|done].
  unfold mbind, M_bind. rewrite with_connection_get_user.
  destruct (select_user (db w) name) as [user|] eqn:Hselect; [|done].
  split; [done|]. simpl. apply select_user_sound in Hselect as [Hrow Hname].
  exists t, payload. by rewrite Hname.
Qed.

(** *** Registration *)

Lemma foldr_max_le (k0 : Z) (ks : list Z) (k : Z) :
  k ∈ k0 :: ks → (k ≤ foldr Z.max k0 ks)%Z.
Proof.
  induction ks as [|a ks IH]; simpl.
  - intros ->%list_elem_of_singleton. lia.
  - intros [->|[->|Hin]%elem_of_cons]%elem_of_cons.
    + etrans; [apply IH; by left|]. lia.
    + lia.
    + etrans; [apply IH; by right|]. lia.
Qed.

Lemma next_rowid_fresh {A} (t : gmap Z A) : t !! Auth.next_rowid t = None.
Proof.
  destruct (t !! Auth.next_rowid t) as [x|] eqn:Hx; [|done].
  assert (Auth.next_rowid t ∈ (map_to_list t).*1) as Hin.
  { apply list_elem_of_fmap. exists (Auth.next_rowid t, x).
    split; [done|]. by apply elem_of_map_to_list. }
  unfold Auth.next_rowid in Hin.
  destruct ((map_to_list t).*1) as [|k0 ks]; [by apply elem_of_nil in Hin|].
  apply foldr_max_le in Hin. lia.
Qed.

Lemma head_filter_None {A} (P : A → Prop) `{!∀ x, Decision (P x)} (l : list A) :
  head (filter P l) = None ↔ ∀ x, x ∈ l → ¬ P x.
Proof.
  rewrite head_None. split.
  - intros Hnil x Hx HP.
    assert (x ∈ filter P l) as Hin by (by apply list_elem_of_filter).
    rewrite Hnil in Hin. by apply elem_of_nil in Hin.
  - intros Hnone. destruct (filter P l) as [|x l'] eqn:Hfilter; [done|].
    assert (x ∈ filter P l) as [HP Hx]%list_elem_of_filter by (rewrite Hfilter; by left).
    by destruct (Hnone x Hx).
Qed.

Lemma select_id_account d name mail :
  Auth.select_id (Auth.SelectIdByUsernameOrEmail name mail) d = None
  ↔ ¬ account_taken d name mail.
Proof.
  unfold Auth.select_id. rewrite fmap_None, head_filter_None. split.
  - intros Hnone (k & u & Hu & Htaken).
    apply (Hnone (k, u)); [by apply elem_of_map_to_list | done].
  - intros Hfree [k u] Hin%elem_of_map_to_list Htaken. apply Hfree. by exists k, u.
Qed.

Lemma select_id_email d mail id :
  Auth.select_id (Auth.SelectIdByEmailExcept mail id) d = None
  ↔ ¬ email_taken_by_other d mail id.
Proof.
  unfold Auth.select_id. rewrite fmap_None, head_filter_None. split.
  - intros Hnone (k & u & Hu & Hmail & Hk).
    apply (Hnone (k, u)); [by apply elem_of_map_to_list | done].
  - intros Hfree [k u] Hin%elem_of_map_to_list [Hmail Hk]. apply Hfree. by exists k, u.
Qed.

Lemma register_taken salt now user w :
  account_taken (db w) (Auth.uc_username user) (Auth.uc_email user) →
  Auth.register_user_api salt now user w
  = (inl (HTTPException 400 (Detail "Username or email already registered")),
     World (db w) None (stripe w) (trace (Auth.register_user_api salt now user w).2)).
Proof.
  intros Htaken.
  unfold Auth.register_user_api, with_connection, Auth.execute, Auth.fetchone,
    commit, raise, mbind, M_bind, mret, M_ret, log.
  cbn [db conn stripe trace default from_option id Auth.exec_account_sql].
  destruct (Auth.select_id _ (db w)) as [k|] eqn:Hselect; [done|].
  by apply select_id_account in Hselect.
Qed.

Lemma register_free salt now user hashed w :
  ¬ account_taken (db w) (Auth.uc_username user) (Auth.uc_email user) →
  Auth.pwd_hash salt (Auth.uc_password user) = inr hashed →
  Auth.register_user_api salt now user w
  = (inr (JSONResponse [("message", "User created successfully")] 201),
     World (Store (<[Auth.next_rowid (users (db w)) :=
                       Auth.new_user (Auth.uc_username user) (Auth.uc_email user)
                         hashed (Auth.uc_full_name user) now]> (users (db w)))
              (orders (db w)))
       None (stripe w) (trace (Auth.register_user_api salt now user w).2)).
Proof.
  intros Hfree Hhash.
  unfold Auth.register_user_api, with_connection, Auth.execute, Auth.fetchone,
    evaluate, commit, raise, mbind, M_bind, mret, M_ret, log.
  cbn [db conn stripe trace default from_option id Auth.exec_account_sql].
  destruct (Auth.select_id _ (db w)) as [k|] eqn:Hselect.
  { apply select_id_account in Hfree. congruence. }
  rewrite Hhash.
  cbn [db conn stripe trace default from_option id].
  rewrite !bool_decide_eq_false_2.
  - done.
  - intros (k & u & Hu & Hmail). apply Hfree. exists k, u. auto.
  - intros (k & u & Hu & Hname). apply Hfree. exists k, u. auto.
Qed.

(** The password library refuses the password: its exception leaves the
    [with] block before the INSERT. *)
Lemma register_unhashed salt now user e w :
  ¬ account_taken (db w) (Auth.uc_username user) (Auth.uc_email user) →
  Auth.pwd_hash salt (Auth.uc_password user) = inl e →
  Auth.register_user_api salt now user w
  = (inl e,
     World (db w) None (stripe w) (trace (Auth.register_user_api salt now user w).2)).
Proof.
  intros Hfree Hhash.
  unfold Auth.register_user_api, with_connection, Auth.execute, Auth.fetchone,
    evaluate, commit, raise, mbind, M_bind, mret, M_ret, log.
  cbn [db conn stripe trace default from_option id Auth.exec_account_sql].
  destruct (Auth.select_id _ (db w)) as [k|] eqn:Hselect.
  { apply select_id_account in Hfree. congruence. }
  by rewrite Hhash.
Qed.

(** The three outcomes of a registration. *)
Lemma register_cases salt now user w :
  let r := Auth.register_user_api salt now user w in
  db r.2 = db w
  ∨ ∃ hashed,
      ¬ account_taken (db w) (Auth.uc_username user) (Auth.uc_email user)
      ∧ db r.2
        = Store (<[Auth.next_rowid (users (db w)) :=
                     Auth.new_user (Auth.uc_username user) (Auth.uc_email user)
                       hashed (Auth.uc_full_name user) now]> (users (db w)))
            (orders (db w)).
Proof.
  intros r. subst r.
  destruct (decide (account_taken (db w) (Auth.uc_username user) (Auth.uc_email user)))
    as [Htaken|Hfree].
  { left. by rewrite (register_taken _ _ _ _ Htaken). }
  destruct (Auth.pwd_hash salt (Auth.uc_password user)) as [e|hashed] eqn:Hhash.
  { left. by rewrite (register_unhashed _ _ _ _ _ Hfree Hhash). }
  right. exists hashed. split; [done|]. by rewrite (register_free _ _ _ _ _ Hfree Hhash).
Qed.

(** Registration answers 400 and writes nothing when the username or the
    email is taken. Otherwise the password is hashed: when the library
    refuses it, its exception is the answer (a server error) and nothing is
    written; when it gives a hash, registration answers 201 and adds one row
    under a fresh id, with that hash, the role 'user', the plan 'none', and
    no subscription or customer; the INSERT is never refused, and no other
    row and no order changes. *)
Theorem register_user_api_outcomes salt now user w :
  let r := Auth.register_user_api salt now user w in
  let name := Auth.uc_username user in
  let mail := Auth.uc_email user in
  (account_taken (db w) name mail →
   r.1 = inl (HTTPException 400 (Detail "Username or email already registered"))
   ∧ db r.2 = db w)
  ∧ (¬ account_taken (db w) name mail →
     match Auth.pwd_hash salt (Auth.uc_password user) with
     | inl e => r.1 = inl e ∧ db r.2 = db w
     | inr hashed =>
         r.1 = inr (JSONResponse [("message", "User created successfully")] 201)
         ∧ users (db w) !! Auth.next_rowid (users (db w)) = None
         ∧ db r.2
           = Store (<[Auth.next_rowid (users (db w)) :=
                        User name mail hashed
                          (Some (Auth.uc_full_name user)) (Some "user") (Some now)
                          (Some "none") None None None None]> (users (db w)))
               (orders (db w))
     end).
Proof.
  intros r name mail. subst r name mail. split.
  - intros Htaken. by rewrite (register_taken _ _ _ _ Htaken).
  - intros Hfree.
    destruct (Auth.pwd_hash salt (Auth.uc_password user)) as [e|hashed] eqn:Hhash.
    + by rewrite (register_unhashed _ _ _ _ _ Hfree Hhash).
    + rewrite (register_free _ _ _ _ _ Hfree Hhash).
      split; [done|]. split; [apply next_rowid_fresh | done].
Qed.

(** *** Login *)

(** The token and the cookie of a successful login. *)
Lemma login_run now name pw w :
  let bad := HTTPException 401 (Detail "Invalid username or password") in
  let token := Auth.create_access_token now (Auth.Claims (Some name) None)
                 (Some (Auth.ACCESS_TOKEN_EXPIRE_MINUTES * 60)) in
  let r := Auth.login_for_access_token_api now name pw w in
  db r.2 = db w
  ∧ r.1 = match select_user (db w) name with
          | None => inl bad
          | Some user =>
              match Auth.pwd_verify pw (hashed_password (cu_row user)) with
              | inl e => inl e
              | inr false => inl bad
              | inr true =>
                  inr (JSONResponse [("access_token", token); ("token_type", "bearer")]
                         200,
                       Auth.Cookie "access_token" ("Bearer " +:+ token) true
                         (Auth.ACCESS_TOKEN_EXPIRE_MINUTES * 60) "Lax")
              end
          end.
Proof.
  intros bad token r. subst bad token r.
  unfold Auth.login_for_access_token_api, with_connection, get_user, execute,
    fetchone_user, await, raise, mbind, M_bind, mret, M_ret, log.
  cbn [db conn stripe trace default from_option id exec_sql].
  destruct (select_user (db w) name) as [user|] eqn:Hselect; [|done].
  destruct (Auth.pwd_verify pw _) as [e|[]] eqn:Hverify; [done| |done].
  cbn [negb db conn stripe trace default from_option id fst snd].
  split; [done|]. apply select_user_sound in Hselect as [_ <-]. done.
Qed.

(** Login reads only. It issues a token, and sets the cookie "Bearer " plus
    that token, only for a stored user with that username whose stored hash
    the password verifies against; an unknown username and a password that
    does not verify are both answered with the same 401. *)
Theorem login_issues_token_to_verified_user now name pw w :
  let r := Auth.login_for_access_token_api now name pw w in
  db r.2 = db w
  ∧ (∀ resp cookie, r.1 = inr (resp, cookie) →
       ∃ user token,
         users (db w) !! cu_id user = Some (cu_row user)
         ∧ username (cu_row user) = name
         ∧ Auth.pwd_verify pw (hashed_password (cu_row user)) = inr true
         ∧ resp = JSONResponse [("access_token", token); ("token_type", "bearer")] 200
         ∧ Auth.cookie_key cookie = "access_token"
         ∧ Auth.cookie_value cookie = "Bearer " +:+ token)
  ∧ ((∀ k u, users (db w) !! k = Some u → username u = name →
             Auth.pwd_verify pw (hashed_password u) = inr false) →
     r.1 = inl (HTTPException 401 (Detail "Invalid username or password"))).
Proof.
  intros r. subst r. destruct (login_run now name pw w) as [Hdb Hrun].
  split; [done|]. rewrite Hrun. clear Hrun. split.
  - intros resp cookie.
    destruct (select_user (db w) name) as [user|] eqn:Hselect; [|done].
    destruct (Auth.pwd_verify pw _) as [e|[]] eqn:Hverify; [done| |done].
    intros [= <- <-]. apply select_user_sound in Hselect as [Hrow Hname].
    by eexists user, _.
  - intros Hwrong.
    destruct (select_user (db w) name) as [user|] eqn:Hselect; [|done].
    apply select_user_sound in Hselect as [Hrow Hname].
    by rewrite (Hwrong _ _ Hrow Hname).
Qed.

(** *** From registration to authentication *)

Lemma select_user_found d name k u :
  users d !! k = Some u → username u = name →
  (∀ k' u', users d !! k' = Some u' → username u' = name → k' = k) →
  select_user d name = Some (CurrentUser k u).
Proof.
  intros Hu Hname Honly.
  destruct (select_user d name) as [[k' u']|] eqn:Hselect.
  - apply select_user_sound in Hselect as [Hrow Hname']. simpl in *.
    assert (k' = k) as -> by (by eapply Honly). congruence.
  - by destruct (select_user_none _ _ _ _ Hselect Hu).
Qed.

(** A user who registers with a free username and email can log in with the
    same password, provided the password library hashes the password and
    verifies it against that hash; the cookie login sets gives back the
    token, and with that token authentication yields the row that
    registration stored, provided the token library decodes the token to its
    subject and the token holds no space. *)
Theorem register_login_authenticate
    salt created user w now_login now_auth payload hashed :
  let name := Auth.uc_username user in
  let token := Auth.create_access_token now_login (Auth.Claims (Some name) None)
                 (Some (Auth.ACCESS_TOKEN_EXPIRE_MINUTES * 60)) in
  ¬ account_taken (db w) name (Auth.uc_email user) →
  Auth.pwd_hash salt (Auth.uc_password user) = inr hashed →
  Auth.pwd_verify (Auth.uc_password user) hashed = inr true →
  Auth.jwt_decode now_auth token (Auth.SECRET_KEY environ) [Auth.ALGORITHM]
  = Some payload →
  Auth.claim_sub payload = Some name →
  str_in " " token = false →
  let registered := (Auth.register_user_api salt created user w).2 in
  let login := Auth.login_for_access_token_api now_login name
                 (Auth.uc_password user) registered in
  ∃ cookie,
    login.1 = inr (JSONResponse [("access_token", token); ("token_type", "bearer")] 200,
                   cookie)
    ∧ Auth.get_token_from_cookie
        (<[Auth.cookie_key cookie := Auth.cookie_value cookie]> ∅) = inr (Some token)
    ∧ (Auth.get_current_user now_auth (Some token) login.2).1
      = inr (CurrentUser (Auth.next_rowid (users (db w)))
               (Auth.new_user name (Auth.uc_email user) hashed
                  (Auth.uc_full_name user) created)).
Proof.
  intros name token Hfree Hhash Hverify Hdecode Hsub Hspace registered login.
  set (k := Auth.next_rowid (users (db w))).
  set (row := Auth.new_user name (Auth.uc_email user) hashed
                (Auth.uc_full_name user) created).
  assert (db registered = Store (<[k := row]> (users (db w))) (orders (db w))) as Hdb.
  { unfold registered. by rewrite (register_free _ _ _ _ _ Hfree Hhash). }
  assert (select_user (db registered) name = Some (CurrentUser k row)) as Hselect.
  { apply select_user_found; rewrite ?Hdb; simpl.
    - apply lookup_insert_eq.
    - done.
    - intros k' u' Hu' Hname'.
      apply lookup_insert_Some in Hu' as [[? _]|[_ Hu']]; [done|].
      destruct Hfree. exists k', u'. auto. }
  destruct (login_run now_login name (Auth.uc_password user) registered)
    as [Hlogin_db Hlogin].
  fold login in Hlogin_db, Hlogin. rewrite Hselect in Hlogin. simpl in Hlogin.
  fold name in Hlogin. rewrite Hverify in Hlogin. fold token in Hlogin.
  eexists. split; [exact Hlogin|]. split.
  - apply get_token_from_cookie_bearer; [|done]. simpl. apply lookup_insert_eq.
  - unfold Auth.get_current_user. rewrite Hdecode, Hsub.
    unfold mbind, M_bind. rewrite with_connection_get_user, Hlogin_db, Hselect. done.
Qed.

(** *** The UNIQUE columns under registration *)

Lemma unique_column_fresh column k u (us : gmap Z user) :
  unique_column column us → us !! k = None →
  (∀ k' u', us !! k' = Some u' → column u = None ∨ column u' ≠ column u) →
  unique_column column (<[k := u]> us).
Proof.
  intros Huniq Hk Hnew k1 k2 u1 u2 x H1 H2 Hx1 Hx2.
  apply lookup_insert_Some in H1 as [[<- <-]|[Hk1 H1]];
    apply lookup_insert_Some in H2 as [[<- <-]|[Hk2 H2]]; try done.
  - destruct (Hnew _ _ H2); congruence.
  - destruct (Hnew _ _ H1); congruence.
  - by eapply Huniq.
Qed.

(** Registration keeps every UNIQUE constraint of [users], keeps every row
    that was there, and writes no order, whether it accepts or refuses. *)
Theorem registration_keeps_unique_columns salt now user w :
  let w' := (Auth.register_user_api salt now user w).2 in
  (unique_usernames (users (db w)) → unique_usernames (users (db w')))
  ∧ (unique_column (λ u, Some (email u)) (users (db w)) →
     unique_column (λ u, Some (email u)) (users (db w')))
  ∧ (unique_column stripe_customer_id (users (db w)) →
     unique_column stripe_customer_id (users (db w')))
  ∧ (unique_column subscription_id (users (db w)) →
     unique_column subscription_id (users (db w')))
  ∧ (∀ k u, users (db w) !! k = Some u → users (db w') !! k = Some u)
  ∧ orders (db w') = orders (db w).
Proof.
  intros w'. subst w'.
  destruct (register_cases salt now user w) as [Hsame|(hashed & Hfree & Hdb)];
    cbv zeta in *.
  { by rewrite Hsame. }
  rewrite Hdb. simpl.
  pose proof (next_rowid_fresh (users (db w))) as Hfresh.
  repeat split.
  - intros Huniq k1 k2 u1 u2 H1 H2 Hname.
    apply lookup_insert_Some in H1 as [[<- <-]|[Hk1 H1]];
      apply lookup_insert_Some in H2 as [[<- <-]|[Hk2 H2]]; try done.
    + destruct Hfree. exists k2, u2. auto.
    + destruct Hfree. exists k1, u1. auto.
    + by eapply Huniq.
  - intros Huniq. apply unique_column_fresh; [done..|].
    intros k' u' Hu'. right. simpl. intros [= Hmail].
    destruct Hfree. exists k', u'. auto.
  - intros Huniq. apply unique_column_fresh; [done..|]. by left.
  - intros Huniq. apply unique_column_fresh; [done..|]. by left.
  - intros k u Hu. rewrite lookup_insert_ne; [done|]. congruence.
Qed.

(** *** The profile form *)

Ltac unfold_profile :=
  unfold Auth.update_user_profile, with_connection, Auth.execute, Auth.fetchone,
    commit, raise, mbind, M_bind, mret, M_ret, log;
  cbn [db conn stripe trace default from_option id Auth.exec_account_sql fst snd].

Lemma profile_keeps_user_refl u : profile_keeps_user u u.
Proof. by repeat split. Qed.

Lemma profile_keeps_user_set full mail picture u :
  profile_keeps_user u (Auth.set_profile full mail picture u).
Proof. by repeat split. Qed.

Ltac case_profile :=
  match goal with
  | |- context [match ?x with _ => _ end] =>
      lazymatch x with
      | context [match _ with _ => _ end] => fail
      | _ => destruct x eqn:?
      end
  | |- context [if ?x then _ else _] =>
      lazymatch x with
      | context [match _ with _ => _ end] => fail
      | context [if _ then _ else _] => fail
      | _ => destruct x eqn:?
      end
  end; cbn [db conn stripe trace default from_option id fst snd] in *.

(** Whatever is submitted, the profile form writes no order and creates and
    deletes no user; it can change the full name, the email and the picture
    of the row with the authenticated user's id only; and a request that is
    answered with an error writes nothing. *)
Theorem profile_update_writes_own_profile_only
    timestamp current_user new_full_name new_email file w :
  let r := Auth.update_user_profile timestamp current_user new_full_name new_email
             file w in
  orders (db r.2) = orders (db w)
  ∧ same_rows profile_keeps_user (users (db w)) (users (db r.2))
  ∧ (∀ k, k ≠ cu_id current_user → users (db r.2) !! k = users (db w) !! k)
  ∧ (∀ e, r.1 = inl e → db r.2 = db w).
Proof.
  intros r. subst r. unfold_profile.
  repeat case_profile;
    try (split; [done|]; split; [by apply same_rows_refl, profile_keeps_user_refl|];
         split; done);
    match goal with
    | Hupd : update_user_by_id _ _ _ _ _ _ = inr _ |- _ =>
        pose proof (update_user_by_id_others _ _ _ _ _ _ _ Hupd) as Hothers;
        apply (update_user_by_id_rows profile_keeps_user) in Hupd as [Hrows Horders];
        [| apply profile_keeps_user_refl | apply profile_keeps_user_set]
    end; done.
Qed.

(** The file names nothing to upload: no file, or one with an empty name. *)
Lemma no_upload_keeps_picture timestamp current_user new_full_name new_email file w :
  truthy (file ≫= Auth.uf_filename) = false →
  Auth.update_user_profile timestamp current_user new_full_name new_email file w
  = Auth.update_user_profile timestamp current_user new_full_name new_email None w.
Proof.
  intros Hname. unfold Auth.update_user_profile.
  destruct file as [file|]; [|done]. simpl in Hname. by rewrite Hname.
Qed.

(** An email held by another account is never written: the request is
    answered with an error whenever the user's row exists, with the 400
    "Email already in use by another account." whenever the email differs
    from the authenticated user's and no upload fails before; the store is
    unchanged in every case. *)
Theorem profile_update_refuses_taken_email
    timestamp current_user new_full_name new_email file w :
  email_taken_by_other (db w) new_email (cu_id current_user) →
  let r := Auth.update_user_profile timestamp current_user new_full_name new_email
             file w in
  db r.2 = db w
  ∧ (is_Some (users (db w) !! cu_id current_user) → ∃ e, r.1 = inl e)
  ∧ (new_email ≠ email (cu_row current_user) →
     truthy (file ≫= Auth.uf_filename) = false →
     r.1 = inl (HTTPException 400 (Detail "Email already in use by another account."))).
Proof.
  intros Htaken r. subst r.
  assert (Auth.select_id (Auth.SelectIdByEmailExcept new_email (cu_id current_user)) (db w)
          ≠ None) as Hselect.
  { intros Hnone%select_id_email. done. }
  assert (unique_conflict (λ u, Some (email u)) (Some new_email) (cu_id current_user)
            (users (db w)) = true) as Hconflict.
  { apply bool_decide_eq_true_2. destruct Htaken as (k & u & Hu & Hmail & Hk).
    exists k, u. repeat split; [done..|by rewrite Hmail]. }
  split; [|split].
  - unfold_profile. unfold update_user_by_id. cbn [rowid_of].
    repeat (first [rewrite Hconflict | case_profile];
            cbn [db conn stripe trace default from_option id fst snd]); done.
  - intros [row Hrow]. unfold_profile. unfold update_user_by_id. cbn [rowid_of].
    repeat (first [rewrite Hconflict | rewrite Hrow | case_profile];
            cbn [db conn stripe trace default from_option id fst snd]); by eexists.
  - intros Hmail Hname. rewrite no_upload_keeps_picture by done.
    unfold_profile. rewrite bool_decide_eq_true_2 by done.
    cbn [db conn stripe trace default from_option id fst snd].
    destruct (Auth.select_id _ _); done.
Qed.

(** When the user's row exists, no other account holds the email and nothing
    is to be uploaded, the form answers 200 and the row takes the submitted
    name and email; its picture becomes the one of the authenticated user. *)
Theorem profile_update_accepted
    timestamp current_user new_full_name new_email file row w :
  users (db w) !! cu_id current_user = Some row →
  ¬ email_taken_by_other (db w) new_email (cu_id current_user) →
  truthy (file ≫= Auth.uf_filename) = false →
  let r := Auth.update_user_profile timestamp current_user new_full_name new_email
             file w in
  r.1 = inr (JSONResponse [("message", "Profile updated successfully!")] 200)
  ∧ db r.2
    = Store (<[cu_id current_user :=
                 Auth.set_profile (Some new_full_name) new_email
                   (profile_picture_url (cu_row current_user)) row]> (users (db w)))
        (orders (db w)).
Proof.
  intros Hrow Hfree Hname r. subst r. rewrite no_upload_keeps_picture by done.
  assert (unique_conflict (λ u, Some (email u)) (Some new_email) (cu_id current_user)
            (users (db w)) = false) as Hconflict.
  { apply bool_decide_eq_false_2. intros (k & u & Hu & Hk & _ & [= Hmail]).
    apply Hfree. by exists k, u. }
  apply select_id_email in Hfree.
  unfold_profile. unfold update_user_by_id. cbn [rowid_of].
  destruct (bool_decide (new_email ≠ _));
    cbn [db conn stripe trace default from_option id fst snd];
    rewrite ?Hfree; cbn [db conn stripe trace default from_option id fst snd];
    by rewrite Hrow, Hconflict.
Qed.

(** The profile form keeps every UNIQUE constraint of [users]. *)
Theorem profile_update_keeps_unique_columns
    timestamp current_user new_full_name new_email file w :
  let w' := (Auth.update_user_profile timestamp current_user new_full_name new_email
               file w).2 in
  (unique_usernames (users (db w)) → unique_usernames (users (db w')))
  ∧ (unique_column (λ u, Some (email u)) (users (db w)) →
     unique_column (λ u, Some (email u)) (users (db w')))
  ∧ (unique_column stripe_customer_id (users (db w)) →
     unique_column stripe_customer_id (users (db w')))
  ∧ (unique_column subscription_id (users (db w)) →
     unique_column subscription_id (users (db w'))).
Proof.
  intros w'. subst w'. unfold_profile.
  repeat case_profile; try done;
    (split; [|split; [|split]]; intros Huniq;
     [ revert Huniq;
       match goal with
       | Hupd : update_user_by_id _ _ _ _ _ _ = inr _ |- _ =>
           revert Hupd; unfold update_user_by_id; simpl;
           destruct (users (db w) !! cu_id current_user) as [row|] eqn:Hrow;
             [|by intros [= <-]];
           destruct (unique_conflict _ _ _ _); [done|]; intros [= <-] Huniq; simpl;
           by eapply unique_usernames_insert
       end
     | eapply (update_user_by_id_unique (λ u, Some (email u))); [|done|done]; by left
     | eapply update_user_by_id_unique; [|done|done]; by right
     | eapply update_user_by_id_unique; [|done|done]; by right ]).
Qed.

(** *** The dependencies of the endpoints and the middleware *)

(** The user the token stands for, if any. *)
Lemma token_user_run now token w :
  let r := Auth.get_current_user now token w in
  db r.2 = db w
  ∧ r.1 = match token with
          | None => inl (HTTPException 401 (Detail "Not authenticated"))
          | Some t =>
              match Auth.jwt_decode now t (Auth.SECRET_KEY environ) [Auth.ALGORITHM]
                    ≫= (λ payload, Auth.claim_sub payload ≫= select_user (db w)) with
              | None => inl (HTTPException 401 (Detail "Not authenticated"))
              | Some user => inr user
              end
          end.
Proof.
  intros r. subst r. unfold Auth.get_current_user, raise.
  destruct token as [t|]; [|done].
  destruct (Auth.jwt_decode _ _ _ _) as [payload|]; [|done]. simpl.
  destruct (Auth.claim_sub payload) as [name|]; [|done]. simpl.
  unfold mbind, M_bind. rewrite with_connection_get_user.
  by destruct (select_user (db w) name).
Qed.

Lemma depends_get_current_user_run now cookies token w :
  Auth.get_token_from_cookie cookies = inr token →
  depends_get_current_user now cookies w = Auth.get_current_user now token w.
Proof.
  intros Htoken. unfold depends_get_current_user, await, mbind, M_bind.
  rewrite Htoken. by destruct (Auth.get_current_user now token w) as [[] ?].
Qed.

(** An admin endpoint is reached only with a cookie whose token decodes to the
    username of a stored user whose role is 'admin'; every other request is
    refused with 401 or 403. The dependency reads only. *)
Theorem admin_access_requires_admin_role now cookies w :
  let r := depends_is_admin now cookies w in
  db r.2 = db w
  ∧ match r.1 with
    | inr user =>
        role (cu_row user) = Some "admin"
        ∧ users (db w) !! cu_id user = Some (cu_row user)
        ∧ ∃ t payload,
            Auth.get_token_from_cookie cookies = inr (Some t)
            ∧ Auth.jwt_decode now t (Auth.SECRET_KEY environ) [Auth.ALGORITHM]
              = Some payload
            ∧ Auth.claim_sub payload = Some (username (cu_row user))
    | inl e => e = HTTPException 401 (Detail "Not authenticated")
               ∨ e = HTTPException 403 (Detail "Admin access required")
    end.
Proof.
  intros r. subst r.
  destruct (get_token_from_cookie_returns cookies) as [token Htoken].
  unfold depends_is_admin, get_current_active_user, Auth.is_admin, raise,
    mbind, M_bind, mret, M_ret.
  rewrite (depends_get_current_user_run _ _ _ _ Htoken).
  destruct (token_user_run now token w) as [Hdb Hrun].
  destruct (Auth.get_current_user now token w) as [[e|user] w']; simpl in *.
  { split; [done|]. left. destruct token; [|congruence].
    destruct (_ ≫= _); congruence. }
  case_bool_decide as Hrole; simpl; [by auto|].
  split; [done|].
  split; [by destruct (decide (role (cu_row user) = Some "admin"))|].
  destruct token as [t|]; [|done].
  destruct (Auth.jwt_decode _ _ _ _) as [payload|] eqn:Hdecode; [|done]. simpl in Hrun.
  destruct (Auth.claim_sub payload) as [name|] eqn:Hsub; [|done]. simpl in Hrun.
  destruct (select_user (db w) name) as [user'|] eqn:Hselect; [|done].
  injection Hrun as ->.
  apply select_user_sound in Hselect as [Hrow Hname].
  split; [done|]. exists t, payload. by rewrite Hname.
Qed.

(** The middleware never fails and writes nothing: it hands the request on
    exactly once. The user it puts in the request state is the one
    authentication yields for the same cookies; and it finds every user
    authentication yields, apart from an empty token and an empty
    username, which it passes over. *)
Theorem middleware_agrees_with_authentication now cookies w :
  ∃ state_user w',
    (∀ A (call_next : option current_user → M St A),
       add_user_to_state now cookies call_next w = call_next state_user w')
    ∧ db w' = db w ∧ stripe w' = stripe w
    ∧ (∀ user, state_user = Some user →
         (depends_get_current_user now cookies w).1 = inr user)
    ∧ (∀ user, (depends_get_current_user now cookies w).1 = inr user →
         Auth.get_token_from_cookie cookies ≠ inr (Some EmptyString) →
         username (cu_row user) ≠ EmptyString →
         state_user = Some user).
Proof.
  destruct (get_token_from_cookie_returns cookies) as [token Htoken].
  rewrite (depends_get_current_user_run _ _ _ _ Htoken).
  destruct (token_user_run now token w) as [_ ->].
  unfold add_user_to_state, await, raise, try_except, mbind, M_bind, mret, M_ret.
  rewrite Htoken.
  change (λ w0 : world St,
            match execute (SelectUserByUsername ?u) w0 with
            | (inl e, w'0) => (inl e, w'0)
            | (inr a, w'0) => fetchone_user a ?u w'0
            end) with (get_user (St:=St) u).
  destruct token as [t|]; simpl; [|by exists None, w].
  case_bool_decide as Ht.
  2:{ exists None, w. repeat split; [done|]. intros user _ Hempty. destruct Hempty.
      by destruct (decide (t = EmptyString)) as [->|]. }
  destruct (Auth.jwt_decode _ _ _ _) as [payload|] eqn:Hdecode; [|by exists None, w].
  simpl.
  destruct (Auth.claim_sub payload) as [name|] eqn:Hsub; simpl; [|by exists None, w].
  case_bool_decide as Hname.
  - eexists _, _. split; [done|]. simpl. repeat split.
    + by intros user ->.
    + intros user Huser _ _. by destruct (select_user (db w) name); simplify_eq/=.
  - exists None, w. repeat split; [done|]. intros user Huser _ Hempty.
    destruct (select_user (db w) name) as [user'|] eqn:Hselect; simplify_eq/=.
    apply select_user_sound in Hselect as [_ Hselect]. destruct Hempty.
    done.
Qed.

End AccountProperties.

(** * The administrators *)

Section Administrators.
Context {St : Type} `{!Deployment} `{!Processor St} `{!Auth.Libraries}.
Implicit Types (w : world St) (d : store).

Lemma same_rows_admin d d' k :
  same_rows keeps_role (users d) (users d') → admin_row d k ↔ admin_row d' k.
Proof.
  intros Hrows. specialize (Hrows k). unfold admin_row.
  destruct Hrows as [u u' Hrole|]; [|by split; intros (? & ? & ?)].
  unfold keeps_role in Hrole.
  split; intros (? & [= <-] & ?); eexists; split; eauto; congruence.
Qed.

Lemma same_rows_keeps_role_refl (us : gmap Z user) : same_rows keeps_role us us.
Proof. by apply same_rows_refl. Qed.

Ltac case_outcome :=
  match goal with
  | |- context [match ?x with _ => _ end] =>
      lazymatch x with
      | context [match _ with _ => _ end] => fail
      | _ => destruct x eqn:?
      end
  | |- context [if ?x then _ else _] =>
      lazymatch x with
      | context [match _ with _ => _ end] => fail
      | context [if _ then _ else _] => fail
      | _ => destruct x eqn:?
      end
  end; cbn [db conn stripe trace default from_option id fst snd users orders] in *.

Ltac role_kept :=
  first
    [ apply same_rows_keeps_role_refl
    | match goal with
      | Hupd : update_user_by_id _ _ _ _ _ _ = inr _ |- _ =>
          apply (update_user_by_id_rows keeps_role) in Hupd as [Hrows _];
          [done | done | by intros []]
      end ].

Lemma webhook_keeps_role request w :
  same_rows keeps_role (users (db w)) (users (db (stripe_webhook_api request w).2)).
Proof.
  unfold stripe_webhook_api, handle_checkout_session_completed, handle_invoice_paid,
    index0, try_except, mbind, M_bind, raise, stripe_Webhook_construct_event,
    stripe_Subscription_retrieve, with_connection, execute, commit, cursor_commit,
    mret, M_ret, log; simpl.
  repeat case_outcome; role_kept.
Qed.

Lemma checkout_keeps_role request current_user w :
  same_rows keeps_role (users (db w))
    (users (db (create_checkout_session_api request current_user w).2)).
Proof.
  unfold create_checkout_session_api, index0, try_except, mbind, M_bind, await, raise,
    stripe_Price_retrieve, stripe_Customer_create, stripe_checkout_Session_create,
    with_connection, execute, commit, mret, M_ret, log; simpl.
  repeat case_outcome; role_kept.
Qed.

Lemma profile_keeps_role timestamp current_user new_full_name new_email file w :
  same_rows keeps_role (users (db w))
    (users (db (Auth.update_user_profile timestamp current_user new_full_name
                  new_email file w).2)).
Proof.
  unfold Auth.update_user_profile, with_connection, Auth.execute, Auth.fetchone,
    commit, raise, mbind, M_bind, mret, M_ret, log;
  cbn [db conn stripe trace default from_option id Auth.exec_account_sql fst snd].
  repeat case_outcome; role_kept.
Qed.

(** No endpoint makes an administrator, and none unmakes one: registration,
    the profile form, the checkout initiator and the webhook leave the
    administrators as they were, whatever they are sent. *)
Theorem no_endpoint_changes_the_administrators w k :
  (∀ salt now user,
     admin_row (db (Auth.register_user_api salt now user w).2) k ↔ admin_row (db w) k)
  ∧ (∀ timestamp current_user new_full_name new_email file,
       admin_row (db (Auth.update_user_profile timestamp current_user new_full_name
                        new_email file w).2) k ↔ admin_row (db w) k)
  ∧ (∀ request current_user,
       admin_row (db (create_checkout_session_api request current_user w).2) k
       ↔ admin_row (db w) k)
  ∧ (∀ request, admin_row (db (stripe_webhook_api request w).2) k ↔ admin_row (db w) k).
Proof.
  split; [|split; [|split]].
  - intros salt now user.
    destruct (register_cases salt now user w) as [Hsame|(hashed & Hfree & Hdb)];
      cbv zeta in *.
    { by rewrite Hsame. }
    rewrite Hdb. unfold admin_row. simpl.
    pose proof (next_rowid_fresh (users (db w))) as Hfresh.
    split.
    + intros (u & Hu & Hrole).
      apply lookup_insert_Some in Hu as [[<- <-]|[_ Hu]]; [done|]. by exists u.
    + intros (u & Hu & Hrole). exists u. split; [|done].
      rewrite lookup_insert_ne; [done|]. congruence.
  - intros. symmetry. apply same_rows_admin, profile_keeps_role.
  - intros. symmetry. apply same_rows_admin, checkout_keeps_role.
  - intros. symmetry. apply same_rows_admin, webhook_keeps_role.
Qed.

End Administrators.

(** * Blog administration and the contact form *)

Section SiteProperties.
Implicit Types (s : Site.site) (ps : gmap Z Site.post).

Ltac unfold_site :=
  unfold Site.admin_blog_create, Site.admin_blog_update, Site.admin_blog_delete,
    Site.handle_contact_form_api, Site.with_connection, Site.execute, Site.commit,
    Site.cursor_commit, Site.try_except, Site.raise, mbind, Site.T_bind, mret,
    Site.T_ret;
  cbn [Site.site_db Site.site_conn Site.exec_site_sql default from_option id fst snd].

(** The contact form never stores a message: the statement is run, the commit
    is asked of the cursor, which has none, the connection rolls back, and
    the request is answered 500, whatever is submitted. *)
Theorem contact_form_stores_nothing now form_data s :
  Site.handle_contact_form_api now form_data s
  = (inl (HTTPException 500
            (Detail "Database error: 'sqlite3.Cursor' object has no attribute 'commit'")),
     Site.SiteWorld (Site.site_db s) None).
Proof. done. Qed.

Lemma admin_blog_create_run now user title content image tags s :
  Site.admin_blog_create now user title content image tags s
  = if Site.slug_conflict (slugify title) None (Site.blog_posts (Site.site_db s))
    then (inl (IntegrityError "UNIQUE constraint failed: blog_posts.slug"),
          Site.SiteWorld (Site.site_db s) None)
    else (inr (RedirectResponse "/admin/blog" 303),
          Site.SiteWorld
            (Site.Tables
               (<[Auth.next_rowid (Site.blog_posts (Site.site_db s)) :=
                    Site.Post title (slugify title) content (Some (cu_id user)) (Some now)
                      image tags]> (Site.blog_posts (Site.site_db s)))
               (Site.contact_messages (Site.site_db s)))
            None).
Proof. unfold_site. by destruct (Site.slug_conflict _ _ _). Qed.

Lemma admin_blog_update_run post_id user title content image tags s :
  Site.admin_blog_update post_id user title content image tags s
  = match Site.blog_posts (Site.site_db s) !! post_id with
    | None => (inr (RedirectResponse "/admin/blog" 303),
               Site.SiteWorld (Site.site_db s) None)
    | Some p =>
        if Site.slug_conflict (slugify title) (Some post_id)
             (Site.blog_posts (Site.site_db s))
        then (inl (IntegrityError "UNIQUE constraint failed: blog_posts.slug"),
              Site.SiteWorld (Site.site_db s) None)
        else (inr (RedirectResponse "/admin/blog" 303),
              Site.SiteWorld
                (Site.Tables
                   (<[post_id := Site.Post title (slugify title) content
                                   (Site.post_author_id p) (Site.post_published_at p)
                                   image tags]> (Site.blog_posts (Site.site_db s)))
                   (Site.contact_messages (Site.site_db s)))
                None)
    end.
Proof.
  unfold_site. destruct (Site.blog_posts (Site.site_db s) !! post_id); [|done].
  by destruct (Site.slug_conflict _ _ _).
Qed.

Lemma admin_blog_delete_run post_id user s :
  Site.admin_blog_delete post_id user s
  = (inr (RedirectResponse "/admin/blog" 303),
     Site.SiteWorld
       (Site.Tables (delete post_id (Site.blog_posts (Site.site_db s)))
          (Site.contact_messages (Site.site_db s)))
       None).
Proof. done. Qed.

Lemma slug_conflict_false slug id ps k p :
  Site.slug_conflict slug id ps = false →
  ps !! k = Some p → Some k ≠ id → Site.post_slug p ≠ slug.
Proof.
  unfold Site.slug_conflict. rewrite bool_decide_eq_false.
  intros Hfree Hp Hk Hslug. apply Hfree. by exists k, p.
Qed.

Lemma slug_conflict_true slug id ps k p :
  ps !! k = Some p → Some k ≠ id → Site.post_slug p = slug →
  Site.slug_conflict slug id ps = true.
Proof. intros Hp Hk Hslug. apply bool_decide_eq_true_2. by exists k, p. Qed.

Lemma unique_slugs_insert ps k p :
  Site.unique_slugs ps →
  Site.slug_conflict (Site.post_slug p) (Some k) ps = false →
  Site.unique_slugs (<[k := p]> ps).
Proof.
  intros Huniq Hfree k1 k2 p1 p2 H1 H2 Hslug.
  apply lookup_insert_Some in H1 as [[<- <-]|[Hk1 H1]];
    apply lookup_insert_Some in H2 as [[<- <-]|[Hk2 H2]]; try done.
  - destruct (slug_conflict_false _ _ _ _ _ Hfree H2); congruence.
  - destruct (slug_conflict_false _ _ _ _ _ Hfree H1); congruence.
  - by eapply Huniq.
Qed.

Lemma slug_conflict_weaken slug k ps :
  Site.slug_conflict slug None ps = false →
  Site.slug_conflict slug (Some k) ps = false.
Proof.
  unfold Site.slug_conflict. rewrite !bool_decide_eq_false.
  intros Hfree (k' & p & Hp & _ & Hslug). apply Hfree. by exists k', p.
Qed.

Lemma clean_slugs_insert ps k p :
  Site.clean_slugs ps → clean_slug (Site.post_slug p) = true →
  Site.clean_slugs (<[k := p]> ps).
Proof.
  intros Hclean Hp k' p' [[_ <-]|[_ Hp']]%lookup_insert_Some; [done|].
  by eapply Hclean.
Qed.

(** The three admin endpoints keep the slugs of the stored posts in normal
    form and distinct, and leave the contact messages alone, whatever title
    is submitted and whether or not the request is accepted. *)
Theorem blog_admin_keeps_slugs_clean_and_unique
    now user post_id title content image tags s :
  isascii title = true →
  ∀ s', s' ∈ [ (Site.admin_blog_create now user title content image tags s).2;
               (Site.admin_blog_update post_id user title content image tags s).2;
               (Site.admin_blog_delete post_id user s).2 ] →
    (Site.clean_slugs (Site.blog_posts (Site.site_db s)) →
     Site.clean_slugs (Site.blog_posts (Site.site_db s')))
    ∧ (Site.unique_slugs (Site.blog_posts (Site.site_db s)) →
       Site.unique_slugs (Site.blog_posts (Site.site_db s')))
    ∧ Site.contact_messages (Site.site_db s') = Site.contact_messages (Site.site_db s).
Proof.
  intros _ s' Hin.
  rewrite admin_blog_create_run, admin_blog_update_run, admin_blog_delete_run in Hin.
  apply elem_of_cons in Hin as [->|Hin]; [|apply elem_of_cons in Hin as [->|Hin]];
    [| |apply list_elem_of_singleton in Hin as ->].
  - destruct (Site.slug_conflict _ _ _) eqn:Hfree; [done|]. simpl.
    split; [|split; [|done]].
    + intros Hclean. apply clean_slugs_insert; [done|]. apply slugify_clean.
    + intros Huniq. apply unique_slugs_insert; [done|]. by apply slug_conflict_weaken.
  - destruct (Site.blog_posts (Site.site_db s) !! post_id) as [p|]; [|done].
    destruct (Site.slug_conflict _ _ _) eqn:Hfree; [done|]. simpl.
    split; [|split; [|done]].
    + intros Hclean. apply clean_slugs_insert; [done|]. apply slugify_clean.
    + intros Huniq. by apply unique_slugs_insert.
  - simpl. split; [|split; [|done]].
    + intros Hclean k p [_ Hp]%lookup_delete_Some. by eapply Hclean.
    + intros Huniq k1 k2 p1 p2 [_ H1]%lookup_delete_Some [_ H2]%lookup_delete_Some.
      by eapply Huniq.
Qed.

(** Two ASCII titles with one slug collide: while a post holds the slug of a
    title, creating a post with that title, and giving that title to another
    post, are refused with an integrity error that nothing handles, and
    nothing is written; the post itself can take the title when the slugs
    are distinct. *)
Theorem blog_titles_with_one_slug_collide
    now user post_id title content image tags s k p :
  isascii title = true →
  Site.blog_posts (Site.site_db s) !! k = Some p →
  Site.post_slug p = slugify title →
  let refused : (exn + response) * Site.site :=
    (inl (IntegrityError "UNIQUE constraint failed: blog_posts.slug"),
     Site.SiteWorld (Site.site_db s) None) in
  Site.admin_blog_create now user title content image tags s = refused
  ∧ (post_id ≠ k → is_Some (Site.blog_posts (Site.site_db s) !! post_id) →
     Site.admin_blog_update post_id user title content image tags s = refused)
  ∧ (Site.unique_slugs (Site.blog_posts (Site.site_db s)) →
     (Site.admin_blog_update k user title content image tags s).1
     = inr (RedirectResponse "/admin/blog" 303)).
Proof.
  intros _ Hp Hslug refused. subst refused.
  rewrite admin_blog_create_run, !admin_blog_update_run. split; [|split].
  - by rewrite (slug_conflict_true _ _ _ _ _ Hp).
  - intros Hk [p' ->]. rewrite (slug_conflict_true _ _ _ _ _ Hp); [done| |done].
    congruence.
  - intros Huniq. rewrite Hp.
    destruct (Site.slug_conflict _ _ _) eqn:Hconflict; [|done].
    apply bool_decide_eq_true in Hconflict as (k' & p' & Hp' & Hk' & Hslug').
    destruct Hk'. f_equal. eapply Huniq; eauto. congruence.
Qed.

(** Editing a post keeps its author and its publication time, and changes no
    other post; editing or deleting a post that does not exist is answered
    with the same redirect as a success, and changes nothing. *)
Theorem blog_edit_keeps_author_and_date post_id user title content image tags s :
  let r := Site.admin_blog_update post_id user title content image tags s in
  (∀ k, k ≠ post_id →
        Site.blog_posts (Site.site_db r.2) !! k = Site.blog_posts (Site.site_db s) !! k)
  ∧ option_Forall2
      (λ p p', Site.post_author_id p' = Site.post_author_id p
               ∧ Site.post_published_at p' = Site.post_published_at p)
      (Site.blog_posts (Site.site_db s) !! post_id)
      (Site.blog_posts (Site.site_db r.2) !! post_id)
  ∧ (Site.blog_posts (Site.site_db s) !! post_id = None →
     r = (inr (RedirectResponse "/admin/blog" 303), Site.SiteWorld (Site.site_db s) None)
     ∧ Site.admin_blog_delete post_id user s
       = (inr (RedirectResponse "/admin/blog" 303),
          Site.SiteWorld (Site.site_db s) None)).
Proof.
  intros r. subst r. rewrite admin_blog_update_run, admin_blog_delete_run.
  destruct (Site.blog_posts (Site.site_db s) !! post_id) as [p|] eqn:Hp.
  - destruct (Site.slug_conflict _ _ _); simpl.
    + rewrite Hp. split; [done|]. split; [by constructor|done].
    + split; [intros k Hk; by rewrite lookup_insert_ne|].
      rewrite lookup_insert_eq. split; [by constructor|done].
  - simpl. rewrite Hp. split; [done|]. split; [constructor|]. intros _.
    split; [done|]. rewrite delete_id by done. by destruct s as [[] ?].
Qed.

(** Creating a post with an ASCII title either stores it under a fresh id,
    with the slug of its title and the administrator as its author, and is
    answered with a redirect, or is refused because a stored post holds that
    slug, and writes nothing; deleting the post just created restores the
    tables. *)
Theorem blog_create_then_delete_restores now user user' title content image tags s :
  isascii title = true →
  let r := Site.admin_blog_create now user title content image tags s in
  let k := Auth.next_rowid (Site.blog_posts (Site.site_db s)) in
  match r.1 with
  | inr resp =>
      resp = RedirectResponse "/admin/blog" 303
      ∧ Site.blog_posts (Site.site_db s) !! k = None
      ∧ Site.blog_posts (Site.site_db r.2) !! k
        = Some (Site.Post title (slugify title) content (Some (cu_id user)) (Some now)
                  image tags)
      ∧ Site.site_db (Site.admin_blog_delete k user' r.2).2 = Site.site_db s
  | inl e =>
      e = IntegrityError "UNIQUE constraint failed: blog_posts.slug"
      ∧ Site.site_db r.2 = Site.site_db s
      ∧ ∃ k' p, Site.blog_posts (Site.site_db s) !! k' = Some p
                ∧ Site.post_slug p = slugify title
  end.
Proof.
  intros _ r k. subst r k. rewrite admin_blog_create_run.
  pose proof (next_rowid_fresh (Site.blog_posts (Site.site_db s))) as Hfresh.
  destruct (Site.slug_conflict _ _ _) eqn:Hconflict; simpl.
  - split; [done|]. split; [done|].
    apply bool_decide_eq_true in Hconflict as (k' & p & Hp & _ & Hslug). by exists k', p.
  - split; [done|]. split; [done|]. split; [apply lookup_insert_eq|].
    rewrite delete_insert_id by done. by destruct s as [[] ?].
Qed.

End SiteProperties.

(** * The properties on the test deployment *)

(** The entitlement check on an unrecognized required plan and on an
    unrecognized user plan. *)
Lemma user_has_access_witness :
  user_has_access "ultimate" "gold" = false
  ∧ user_has_access "gold" "basic" = user_has_access "none" "basic".
Proof.
  split.
  - apply (proj1 (proj2 user_has_access_spec)). by intros [].
  - apply (proj2 (proj2 user_has_access_spec)). by intros [].
Defined.

(** A forged signature on an otherwise valid completed-checkout payload. *)
Lemma webhook_rejects_unverified_signature_witness :
  let w := test_world alice_store in
  let request := webhook_request "checkout_subscription" "forged" in
  let e := SignatureVerificationError
             "No signatures found matching the expected signature for payload" in
  @stripe_webhook_api test_deployment nat test_processor request w
  = (inl (HTTPException 400 (StrOf e)), w)
  ∧ http_status (@stripe_webhook_api test_deployment nat test_processor request w).1 = 400.
Proof.
  intros w request e.
  apply (@webhook_rejects_unverified_signature nat test_deployment test_processor
           request w e).
  - reflexivity.
  - eexists. by left.
Defined.

(** The completed checkout of alice's premium subscription, delivered twice. *)
Lemma checkout_subscription_idempotent_witness :
  so_mode subscription_session = "subscription"
  ∧ let handle := @handle_checkout_session_completed test_deployment nat test_processor
                    subscription_session in
    db (handle (handle (test_world alice_store)).2).2
    = db (handle (test_world alice_store)).2
    ∧ db (handle (test_world alice_store)).2 = db (test_world alice_store).
Proof.
  split; [reflexivity|].
  exact (@checkout_subscription_idempotent nat test_deployment test_processor
           subscription_session (test_world alice_store) eq_refl).
Defined.

(** C4 fails on the code: an Order whose status is 'failed' is not left
    unchanged by a completed-checkout event of its session; the UPDATE has no
    condition on the status and makes it 'completed'. *)
Lemma failed_order_becomes_completed :
  let w := test_world failed_order_store in
  let r := @stripe_webhook_api test_deployment nat test_processor
             (webhook_request "checkout_payment" "good") w in
  orders (db w) !! 7 = Some failed_order
  ∧ status failed_order = Some "failed"
  ∧ stripe_session_id failed_order = Some (so_id payment_session)
  ∧ r.1 = inr (JSONResponse [("status", "success")] 200)
  ∧ status <$> orders (db r.2) !! 7 = Some (Some "completed")
  ∧ orders (db r.2) !! 7 ≠ orders (db w) !! 7.
Proof. vm_compute. repeat split; done. Qed.

(** The completed checkout of a one-time purchase whose Order had failed. *)
Lemma payment_checkout_completes_matching_orders_witness :
  let w := test_world failed_order_store in
  let r := @stripe_webhook_api test_deployment nat test_processor
             (webhook_request "checkout_payment" "good") w in
  r.1 = inr (JSONResponse [("status", "success")] 200)
  ∧ users (db r.2) = users (db w)
  ∧ (∀ k o, orders (db w) !! k = Some o →
       stripe_session_id o = Some (so_id payment_session) →
       orders (db r.2) !! k = Some (set_status (Some "completed") o))
  ∧ (∀ k o, orders (db w) !! k = Some o →
       stripe_session_id o ≠ Some (so_id payment_session) ∨ status o = Some "completed" →
       orders (db r.2) !! k = Some o)
  ∧ (∀ k, orders (db w) !! k = None → orders (db r.2) !! k = None).
Proof.
  exact (@payment_checkout_completes_matching_orders nat test_deployment test_processor
           (webhook_request "checkout_payment" "good") (test_world failed_order_store)
           (Event "checkout.session.completed" payment_session)
           eq_refl eq_refl eq_refl eq_refl).
Defined.

(** C5 on the code: an authentic invoice-paid event whose subscription
    reference no user owns is answered with the server error 500 (the
    [AttributeError] of [cursor.commit()]), not with success; the store is
    unchanged. *)
Theorem orphan_invoice_paid_is_server_error :
  let w := test_world alice_store in
  let r := @stripe_webhook_api test_deployment nat test_processor
             (webhook_request "invoice_paid" "good") w in
  (∀ k u, users (db w) !! k = Some u → subscription_id u ≠ so_subscription orphan_invoice)
  ∧ r.1 = inl (AttributeError "'sqlite3.Cursor' object has no attribute 'commit'")
  ∧ http_status r.1 = 500
  ∧ db r.2 = db w.
Proof.
  intros w r. split.
  - intros k u Hu. subst w. simpl in Hu.
    apply lookup_insert_Some in Hu as [[_ <-]|[_ Hu]]; [done|].
    by rewrite lookup_empty in Hu.
  - exact (@invoice_paid_is_server_error nat test_deployment test_processor
             (webhook_request "invoice_paid" "good") w
             (Event "invoice.payment_succeeded" orphan_invoice)
             eq_refl eq_refl eq_refl).
Qed.

(** C6 on the code: the completed checkout of alice's premium subscription,
    whose subscription the processor finds and whose price [plan_map] sends
    to 'premium', is answered with the server error 500 (the [AttributeError]
    of [subscription_data.items.data]); no statement is executed, and alice's
    plan is still 'none', her status and her subscription reference still
    NULL. *)
Theorem subscription_checkout_is_server_error :
  let w := test_world alice_store in
  let r := @stripe_webhook_api test_deployment nat test_processor
             (webhook_request "checkout_subscription" "good") w in
  @Subscription_retrieve nat test_processor (stripe w)
    (so_subscription subscription_session)
  = inr (Subscription [SubscriptionItem (PriceInfo "price_premium" true)])
  ∧ dict_get (@plan_map test_deployment) "price_premium" "unknown" = "premium"
  ∧ r.1 = inl (AttributeError
                 "'builtin_function_or_method' object has no attribute 'data'")
  ∧ http_status r.1 = 500
  ∧ db r.2 = db w
  ∧ trace r.2 = [StripeCall (SubscriptionRetrieve (Some "sub_1"))]
  ∧ users (db r.2) !! 1 = Some alice
  ∧ subscription_plan alice = Some "none"
  ∧ subscription_status alice = None
  ∧ subscription_id alice = None.
Proof.
  intros w r. split; [reflexivity|]. split; [by vm_compute|].
  destruct (@subscription_checkout_raises nat test_deployment test_processor
              (webhook_request "checkout_subscription" "good") w
              (Event "checkout.session.completed" subscription_session)
              (Subscription [SubscriptionItem (PriceInfo "price_premium" true)])
              eq_refl eq_refl eq_refl eq_refl eq_refl)
    as (Hraise & Hstatus & Hdb & Htrace).
  fold r in Hraise, Hstatus, Hdb, Htrace.
  split; [exact Hraise|]. split; [exact Hstatus|]. split; [exact Hdb|].
  split; [exact Htrace|]. rewrite Hdb. by vm_compute.
Qed.

(** C7 on the code: a checkout initiation with an empty list of line items
    is answered with the server error 500, not with a client error; the
    processor is not called and nothing is written (the world is unchanged). *)
Theorem empty_cart_checkout_is_server_error :
  let w := test_world alice_store in
  let r := @create_checkout_session_api test_deployment nat test_processor
             (json_request (Some [])) (CurrentUser 1 alice) w in
  r = (inl (HTTPException 500
              (StrOf (HTTPException 400 (Detail "No items to purchase.")))), w)
  ∧ http_status r.1 = 500.
Proof.
  intros w r. subst r.
  rewrite (@empty_cart_is_server_error nat test_deployment test_processor
             (json_request (Some [])) (CurrentUser 1 alice) w (Some []) eq_refl eq_refl).
  done.
Qed.

(** C8 on the code: a successful one-time-purchase checkout initiation (the
    session is opened in payment mode and the user is redirected to it)
    creates no Order: the [orders] table is still empty. *)
Theorem payment_checkout_creates_no_order :
  let w := test_world alice_store in
  let r := @create_checkout_session_api test_deployment nat test_processor
             (json_request (Some [LineItem "price_game" 1])) (CurrentUser 1 alice) w in
  r.1 = inr (RedirectResponse "https://checkout.stripe.com/pay/cs_1" 303)
  ∧ session_modes (trace r.2) = ["payment"]
  ∧ orders (db w) = ∅
  ∧ orders (db r.2) = ∅.
Proof.
  intros w r. split; [by vm_compute|]. split; [by vm_compute|]. split; [done|].
  subst r. by rewrite checkout_keeps_orders.
Qed.

(** C9 fails on the code: when both requests are authenticated before either
    handler body runs, each finds no customer reference, each creates a
    customer, and the second UPDATE overwrites the reference the first one
    stored. *)
Lemma interleaved_checkouts_create_two_customers :
  let w := test_world alice_store in
  let request := json_request (Some [LineItem "price_game" 1]) in
  let r := @two_checkouts_interleaved test_deployment nat test_processor
             (Some "alice") request request w in
  stripe_customer_id alice = None
  ∧ r.1.1 = inr (RedirectResponse "https://checkout.stripe.com/pay/cs_1" 303)
  ∧ r.1.2 = inr (RedirectResponse "https://checkout.stripe.com/pay/cs_3" 303)
  ∧ customers_created (trace r.2) = 2%nat
  ∧ session_customers (trace r.2) = ["cus_0"; "cus_2"]
  ∧ stripe_customer_id <$> users (db r.2) !! 1 = Some (Some "cus_2").
Proof. vm_compute. repeat split; done. Qed.

(** Alice, who has no customer reference, initiates two checkouts one after
    the other. *)
Lemma sequential_checkouts_share_customer_witness :
  let w := test_world alice_store in
  let request := json_request (Some [LineItem "price_game" 1]) in
  let r := @two_checkouts_in_sequence test_deployment nat test_processor
             (Some "alice") request request w in
  ∃ c new,
    trace r.2 = (trace w ++ new)%list
    ∧ customers_created new = 1%nat
    ∧ users (db r.2) !! 1 = Some (set_stripe_customer_id (Some c) alice)
    ∧ (∀ x, x ∈ session_customers new → x = c)
    ∧ (∀ q, DbExecute q ∈ new →
         q = SelectUserByUsername "alice" ∨ q = UpdateUserCustomer c (SqlInteger 1)).
Proof.
  intros w request.
  apply (@sequential_checkouts_share_customer nat test_deployment test_processor
           "alice" request request w 1 alice).
  - intros k1 k2 u1 u2 H1 H2 _. simpl in H1, H2.
    apply lookup_insert_Some in H1 as [[<- _]|[_ H1]]; [|by rewrite lookup_empty in H1].
    apply lookup_insert_Some in H2 as [[<- _]|[_ H2]]; [done|by rewrite lookup_empty in H2].
  - reflexivity.
  - reflexivity.
  - reflexivity.
  - intros s e n c s' [= <- _]. done.
  - eexists. by vm_compute.
Defined.

(** A cart with a one-time price first and a recurring price second: one
    session is asked for, in payment mode, as for the first item alone. *)
Lemma checkout_mode_from_first_item_witness :
  let w := test_world alice_store in
  let first := LineItem "price_game" 1 in
  let r := @create_checkout_session_api test_deployment nat test_processor
             (json_request (Some [first; LineItem "price_basic" 1]))
             (CurrentUser 1 alice) w in
  let r' := @create_checkout_session_api test_deployment nat test_processor
              (json_request (Some [first])) (CurrentUser 1 alice) w in
  @Price_retrieve nat test_processor (stripe w) "price_basic"
  = inr (PriceInfo "price_basic" true)
  ∧ ∃ new, trace r.2 = (trace w ++ new)%list
      ∧ session_modes new = ["payment"]
      ∧ (∀ id, StripeCall (PriceRetrieve id) ∈ new → id = price first)
      ∧ ∃ new', trace r'.2 = (trace w ++ new')%list ∧ session_modes new' = ["payment"].
Proof.
  intros w first r r'. split; [reflexivity|].
  destruct (@checkout_mode_from_first_item nat test_deployment test_processor
              (json_request (Some [first; LineItem "price_basic" 1]))
              (CurrentUser 1 alice) w first [LineItem "price_basic" 1] eq_refl)
    as (new & Htrace & _ & Hprices & Hopened & Hrest).
  exists new. split; [exact Htrace|].
  assert (session_modes new = ["payment"]) as Hmode.
  { apply (Hopened (PriceInfo "price_game" false) eq_refl).
    right. exists (Customer "cus_0"), 1%nat. split; [reflexivity | by vm_compute]. }
  split; [exact Hmode|]. split; [exact Hprices|].
  destruct (Hrest (json_request (Some [first])) [] eq_refl) as (new' & Htrace' & Hsame).
  exists new'. split; [exact Htrace'|]. by rewrite Hsame.
Defined.

(** ** Further properties on the test deployment *)

(** An authentic event of a kind the webhook has no handler for. *)
Lemma webhook_ignores_other_events_witness :
  let w := test_world alice_store in
  let request := webhook_request "customer_created" "good" in
  @stripe_webhook_api test_deployment nat more_processor request w
  = (inr (JSONResponse [("status", "success")] 200), w).
Proof.
  intros w request.
  apply (@webhook_ignores_other_events nat test_deployment more_processor request w
           (Event "customer.created" (StripeObject "cus_9" EmptyString None Missing))).
  - reflexivity.
  - by vm_compute.
  - by vm_compute.
Defined.

(** A completed checkout that carries no metadata, and one whose metadata
    is [null]. *)
Lemma checkout_without_user_id_is_acknowledged_witness :
  let w := test_world alice_store in
  let r := @stripe_webhook_api test_deployment nat more_processor
             (webhook_request "checkout_anonymous" "good") w in
  let r' := @stripe_webhook_api test_deployment nat more_processor
              (webhook_request "checkout_null_metadata" "good") w in
  (r.2 = w ∧ r.1 = inr (JSONResponse [("status", "success")] 200))
  ∧ (r'.2 = w
     ∧ r'.1 = inl (AttributeError "'NoneType' object has no attribute 'get'")
     ∧ http_status r'.1 = 500).
Proof.
  intros w r r'. split.
  - apply (@checkout_without_user_id_is_acknowledged nat test_deployment more_processor
             (webhook_request "checkout_anonymous" "good") w
             (Event "checkout.session.completed" anonymous_session)).
    + reflexivity.
    + reflexivity.
    + reflexivity.
  - apply (@checkout_without_user_id_is_acknowledged nat test_deployment more_processor
             (webhook_request "checkout_null_metadata" "good") w
             (Event "checkout.session.completed" null_metadata_session)).
    + reflexivity.
    + reflexivity.
    + reflexivity.
Defined.

(** Alice's first checkout at a processor that creates her customer and then
    cannot open the session. *)
Lemma failed_session_keeps_customer_reference_witness :
  let w := test_world alice_store in
  let r := @create_checkout_session_api test_deployment nat failing_session_processor
             (json_request (Some [LineItem "price_game" 1])) (CurrentUser 1 alice) w in
  r.1 = inl (HTTPException 500 (StrOf (StripeError "Connection error")))
  ∧ users (db r.2)
    = <[1 := set_stripe_customer_id (Some "cus_0") alice]> (users alice_store).
Proof.
  intros w.
  apply (@failed_session_keeps_customer_reference nat test_deployment
           failing_session_processor
           (json_request (Some [LineItem "price_game" 1])) (CurrentUser 1 alice) w
           (LineItem "price_game" 1) [] (PriceInfo "price_game" false) (Customer "cus_0") 1%nat
           (StripeError "Connection error") 1%nat).
  - reflexivity.
  - reflexivity.
  - reflexivity.
  - reflexivity.
  - reflexivity.
  - by vm_compute.
  - reflexivity.
Defined.

(** A title with capitals, punctuation and spaces at both ends. *)
Lemma slugify_normal_form_witness :
  let text := "  Hello,  World!! -- a_b  " in
  clean_slug (slugify text) = true
  ∧ slugify (slugify text) = slugify text
  ∧ (slugify text = text ↔ clean_slug text = true).
Proof.
  intros text. apply (slugify_normal_form text). reflexivity.
Defined.

(** A title of punctuation only. *)
Lemma slugify_empty_witness :
  slugify "!!!" = EmptyString ↔ all_chars separator "!!!" = true.
Proof.
  apply (slugify_empty "!!!"). reflexivity.
Defined.

(** Carol registers beside alice, logs in, and is authenticated. *)
Lemma register_login_authenticate_witness :
  let w := test_world alice_store in
  let registered :=
    (@Auth.register_user_api test_deployment Auth.test_libraries nat
       "salt" "2024-02-01 00:00:00" Auth.carol w).2 in
  let login :=
    @Auth.login_for_access_token_api test_deployment Auth.test_libraries nat
      100 "carol" "correct horse" registered in
  ∃ cookie,
    login.1 = inr (JSONResponse [("access_token", "jwt:carol"); ("token_type", "bearer")]
                     200, cookie)
    ∧ Auth.get_token_from_cookie
        (<[Auth.cookie_key cookie := Auth.cookie_value cookie]> ∅)
      = inr (Some "jwt:carol")
    ∧ (@Auth.get_current_user test_deployment Auth.test_libraries nat
         200 (Some "jwt:carol") login.2).1
      = inr (CurrentUser 2
               (Auth.new_user "carol" "carol@example.com" "hash(correct horse)" "Carol"
                  "2024-02-01 00:00:00")).
Proof.
  intros w.
  apply (@register_login_authenticate nat test_deployment Auth.test_libraries
           "salt" "2024-02-01 00:00:00" Auth.carol w 100 200
           (Auth.Claims (Some "carol") None) "hash(correct horse)").
  - intros (k & u & Hu & Htaken).
    change (users (db w)) with (<[1 := alice]> (∅ : gmap Z user)) in Hu.
    apply lookup_insert_Some in Hu as [[_ <-]|[_ Hu]]; [by destruct Htaken | done].
  - reflexivity.
  - reflexivity.
  - reflexivity.
  - reflexivity.
  - reflexivity.
Defined.

(** Alice asks for bob's email. *)
Lemma profile_update_refuses_taken_email_witness :
  let w := test_world alice_bob_store in
  let r := @Auth.update_user_profile test_deployment Auth.test_libraries nat
             0 (CurrentUser 1 alice) "Alice" (email bob) None w in
  db r.2 = db w
  ∧ (is_Some (users (db w) !! 1) → ∃ e, r.1 = inl e)
  ∧ (email bob ≠ email alice →
     truthy (None ≫= Auth.uf_filename) = false →
     r.1 = inl (HTTPException 400 (Detail "Email already in use by another account."))).
Proof.
  intros w.
  apply (@profile_update_refuses_taken_email nat test_deployment Auth.test_libraries
           0 (CurrentUser 1 alice) "Alice" (email bob) None w).
  exists 2, bob. split; [reflexivity|]. split; [reflexivity|by vm_compute].
Defined.

(** Alice changes her name and her email. *)
Lemma profile_update_accepted_witness :
  let w := test_world alice_store in
  let r := @Auth.update_user_profile test_deployment Auth.test_libraries nat
             0 (CurrentUser 1 alice) "Alice B" "alice@new.example" None w in
  r.1 = inr (JSONResponse [("message", "Profile updated successfully!")] 200)
  ∧ db r.2
    = Store (<[1 := Auth.set_profile (Some "Alice B") "alice@new.example"
                      (profile_picture_url alice) alice]> (users alice_store))
        (orders alice_store).
Proof.
  intros w.
  apply (@profile_update_accepted nat test_deployment Auth.test_libraries
           0 (CurrentUser 1 alice) "Alice B" "alice@new.example" None alice w).
  - reflexivity.
  - intros (k & u & Hu & _ & Hk).
    change (users (db w)) with (<[1 := alice]> (∅ : gmap Z user)) in Hu.
    apply lookup_insert_Some in Hu as [[? _]|[_ Hu]]; [by destruct Hk | done].
  - reflexivity.
Defined.

(** A second post beside the first. *)
Lemma blog_admin_keeps_slugs_clean_and_unique_witness :
  let s := Site.one_post in
  let s' := (Site.admin_blog_create "2024-03-01 00:00:00" Site.dave "Second post" "Text"
               None None s).2 in
  (Site.clean_slugs (Site.blog_posts (Site.site_db s)) →
   Site.clean_slugs (Site.blog_posts (Site.site_db s')))
  ∧ (Site.unique_slugs (Site.blog_posts (Site.site_db s)) →
     Site.unique_slugs (Site.blog_posts (Site.site_db s')))
  ∧ Site.contact_messages (Site.site_db s') = Site.contact_messages (Site.site_db s).
Proof.
  intros s s'.
  apply (blog_admin_keeps_slugs_clean_and_unique "2024-03-01 00:00:00" Site.dave 1
           "Second post" "Text" None None s).
  - reflexivity.
  - by left.
Defined.

(** "hello, world!" beside "Hello World" and "Release notes": it cannot be
    created, the second post cannot take it, the first post can. *)
Lemma blog_titles_with_one_slug_collide_witness :
  let s := Site.two_posts in
  let refused : (exn + response) * Site.site :=
    (inl (IntegrityError "UNIQUE constraint failed: blog_posts.slug"),
     Site.SiteWorld (Site.site_db s) None) in
  Site.blog_posts (Site.site_db s) !! 1 = Some Site.first_post
  ∧ Site.blog_posts (Site.site_db s) !! 2 = Some Site.second_post
  ∧ Site.admin_blog_create "2024-03-01 00:00:00" Site.dave "hello, world!" "Text" None None s
    = refused
  ∧ Site.admin_blog_update 2 Site.dave "hello, world!" "Text" None None s = refused
  ∧ (Site.admin_blog_update 1 Site.dave "hello, world!" "Text" None None s).1
    = inr (RedirectResponse "/admin/blog" 303).
Proof.
  intros s refused. split; [reflexivity|]. split; [reflexivity|].
  destruct (blog_titles_with_one_slug_collide "2024-03-01 00:00:00" Site.dave 2
              "hello, world!" "Text" None None s 1 Site.first_post
              eq_refl eq_refl eq_refl)
    as (Hcreate & Hother & Hself).
  split; [exact Hcreate|]. split.
  - apply Hother; [done | by exists Site.second_post].
  - apply Hself. intros k1 k2 p1 p2 H1 H2 Hslug.
    change (Site.blog_posts (Site.site_db s))
      with (<[2 := Site.second_post]> (<[1 := Site.first_post]> (∅ : gmap Z Site.post)))
      in H1, H2.
    apply lookup_insert_Some in H1 as [[<- <-]|[_ H1]];
      apply lookup_insert_Some in H2 as [[<- <-]|[_ H2]]; try done;
      try (apply lookup_insert_Some in H1 as [[<- <-]|[_ H1]]; [|done]);
      try (apply lookup_insert_Some in H2 as [[<- <-]|[_ H2]]; [|done]);
      done.
Defined.

(** A second post beside the first, created and deleted again. *)
Lemma blog_create_then_delete_restores_witness :
  let s := Site.one_post in
  let r := Site.admin_blog_create "2024-03-01 00:00:00" Site.dave "Second post" "Text"
             None None s in
  r.1 = inr (RedirectResponse "/admin/blog" 303)
  ∧ Site.blog_posts (Site.site_db s) !! 2 = None
  ∧ Site.blog_posts (Site.site_db r.2) !! 2
    = Some (Site.Post "Second post" "second-post" "Text" (Some 7)
              (Some "2024-03-01 00:00:00") None None)
  ∧ Site.site_db (Site.admin_blog_delete 2 Site.dave r.2).2 = Site.site_db s.
Proof.
  intros s r.
  pose proof (blog_create_then_delete_restores "2024-03-01 00:00:00" Site.dave Site.dave
                "Second post" "Text" None None s eq_refl) as Hcreate.
  cbv zeta in Hcreate. fold r in Hcreate.
  assert (r.1 = inr (RedirectResponse "/admin/blog" 303)) as Hr by (by vm_compute).
  rewrite Hr in Hcreate. destruct Hcreate as (_ & Hfresh & Hstored & Hrestored).
  split; [exact Hr|]. split; [exact Hfresh|]. split; [exact Hstored|]. exact Hrestored.
Defined.
